(** * India Inflation Atlas: cleaning scripts and forecast view

    A shallow embedding of the data-cleaning scripts
    ([datacleaning/replaceP.py], [errorAnalysis.py], [check.py],
    [cleanup.py]) and of the seasonal and forecast branches of
    [update_visualization] in [model.py], followed by the properties of
    the specification that concern them.

    Numeric cells are pandas floats.  They are embedded as exact
    rationals ([Qc]) together with a missing marker: [None] is NaN.
    Rounding of binary floating point is therefore outside that model;
    every arithmetic identity stated on it is one of exact arithmetic.
    The linear forecast is embedded a second time on binary64 numbers
    ([binary64]), to state what rounding does to its results. *)

From Stdlib Require Import String Ascii ZArith QArith Qcanon Qround Lia.
From Stdlib Require Import DecimalString.
From Stdlib Require PrimFloat FloatOps Uint63.
From stdpp Require Import base list numbers strings sorting gmap.

Open Scope string_scope.

(** ** Python outcomes *)

(** The exceptions the embedded code can raise, by class. *)
Inductive exn : Type :=
  | ValueError (msg : string)
  | IndexError
  | UnboundLocalError.

(** A computation either returns or raises. *)
Inductive outcome (A : Type) : Type :=
  | Returned (a : A)
  | Raised (e : exn).
Arguments Returned {A} a.
Arguments Raised {A} e.

#[export] Instance outcome_ret : MRet outcome := fun A a => Returned a.
#[export] Instance outcome_bind : MBind outcome := fun A B k m =>
  match m with
  | Returned a => k a
  | Raised e => Raised e
  end.

(** ** pandas series of floats *)

(** A float cell; [None] is NaN. *)
Abbreviation value := (option Qc).

(** ** Data model *)

(** A row of the item table (a Price Record): the columns of
    [itemIndex.csv] the scripts and the dashboard read. *)
Record item_row : Type := mk_row {
  item_code : option string;
  description : option string;
  year : Z;
  month : Z;
  combined_index : value
}.

#[export] Instance item_row_eq_dec : EqDecision item_row.
Proof. solve_decision. Defined.

(** [str(z)] for a Python integer. *)
Definition str_of_int (z : Z) : string := NilZero.string_of_int (Z.to_int z).

Module Series.

Definition num (z : Z) : value := Some (Qc_of_Z z).

(** NaN-propagating arithmetic. *)
Definition lift2 (f : Qc -> Qc -> Qc) (a b : value) : value :=
  match a, b with
  | Some x, Some y => Some (f x y)
  | _, _ => None
  end.
Definition sub := lift2 Qcminus.
Definition add := lift2 Qcplus.
Definition mul := lift2 Qcmult.

(** Comparisons: any comparison with NaN is false. *)
Definition lt (a b : value) : bool :=
  match a, b with
  | Some x, Some y => bool_decide (x < y)%Qc
  | _, _ => false
  end.
Definition gt (a b : value) : bool := lt b a.

(** [dropna]: the non-missing values, in order. *)
Definition dropna (l : list value) : list Qc := omap id l.

Definition total (l : list Qc) : Qc := foldr Qcplus 0%Qc l.

(** Mean of a list of numbers; NaN on the empty list. *)
Definition mean_of (l : list Qc) : value :=
  match l with
  | [] => None
  | _ => Some (total l / Qc_of_Z (Z.of_nat (length l)))%Qc
  end.

(** [Series.mean()]: missing values are skipped; the mean of a series
    with no value is NaN. *)
Definition mean (l : list value) : value := mean_of (dropna l).

(** [Series.fillna(method='ffill')]: a missing cell takes the last
    non-missing value above it; a leading missing run stays missing. *)
Fixpoint ffill_from (last : value) (l : list value) : list value :=
  match l with
  | [] => []
  | Some v :: r => Some v :: ffill_from (Some v) r
  | None :: r => last :: ffill_from last r
  end.
Definition ffill (l : list value) : list value := ffill_from None l.

(** [Series.fillna(v)]: missing cells become [v]; filling with NaN
    changes nothing. *)
Definition fillna (v : value) (l : list value) : list value :=
  map (fun x => match x with Some _ => x | None => v end) l.

(** [Series.quantile(q)], linear interpolation between the two order
    statistics around position [q * (n - 1)] of the sorted non-missing
    values; NaN when there is none. *)
Definition quantile (q : Qc) (l : list value) : value :=
  let s := merge_sort Qcle (dropna l) in
  match s with
  | [] => None
  | x0 :: _ =>
      let pos := (q * Qc_of_Z (Z.of_nat (length s) - 1))%Qc in
      let lo := Qfloor pos in
      let frac := (pos - Qc_of_Z lo)%Qc in
      let a := nth (Z.to_nat lo) s x0 in
      let b := nth (Z.to_nat (lo + 1)) s a in
      Some (a + (b - a) * frac)%Qc
  end.

(** [Series.rolling(window=w).mean()] with the default
    [min_periods = w]: the cell at position [i] is the mean of the
    [w] cells ending at [i] when all [w] of them exist and are
    non-missing, and NaN otherwise (in particular for [w = 0], where
    the window holds no observation). *)
Definition window (w i : nat) (l : list value) : list value :=
  drop (S i - w) (take (S i) l).

Definition rolling_cell (w : nat) (l : list value) (i : nat) : value :=
  let obs := dropna (window w i l) in
  if bool_decide (w <= length obs) then mean_of obs else None.

Definition rolling_mean (w : nat) (l : list value) : list value :=
  map (rolling_cell w l) (seq 0 (length l)).

(** [Series.ewm(alpha=a).mean()] with the defaults [adjust=True],
    [ignore_na=False]: the running weighted average [weighted] and
    the total weight [old_wt] of pandas' recurrence. *)
Definition ewm_step (a : Qc) (st : value * Qc) (cur : value) : value * Qc :=
  let '(weighted, old_wt) := st in
  match weighted, cur with
  | Some wv, Some c =>
      let w := (old_wt * (1 - a))%Qc in
      (Some ((w * wv + c) / (w + 1))%Qc, (w + 1)%Qc)
  | Some wv, None => (Some wv, (old_wt * (1 - a))%Qc)
  | None, _ => (cur, 1%Qc)
  end.

Fixpoint ewm_from (a : Qc) (st : value * Qc) (l : list value) : list value :=
  match l with
  | [] => []
  | cur :: r =>
      let st' := ewm_step a st cur in
      fst st' :: ewm_from a st' r
  end.

Definition ewm_mean (a : Qc) (l : list value) : list value :=
  ewm_from a (None, 1%Qc) l.

(** [s.iloc[-1]] on a non-empty series. *)
Definition iloc_last (l : list value) : value := default None (last l).

End Series.

(** ** replaceP.py *)

Module replaceP.

(** [$] without [re.MULTILINE]: at the end of the string, or just
    before a newline that is the last character. *)
Definition at_dollar (rest : string) : bool :=
  match rest with
  | EmptyString => true
  | String c EmptyString => Ascii.eqb c "010"%char
  | _ => false
  end.

(** Does [\.P$] match at the head of [s]? *)
Definition match_here (s : string) : bool :=
  match s with
  | String "." (String "P" rest) => at_dollar rest
  | _ => false
  end.

(** [re.sub(r"\.P$", "", s)]: scan from the left; at a match drop the
    two matched characters and go on behind them, otherwise copy one
    character. *)
Fixpoint re_sub (s : string) : string :=
  match s with
  | EmptyString => EmptyString
  | String c s' =>
      if match_here s then
        match s' with
        | String _ rest => re_sub rest
        | EmptyString => EmptyString
        end
      else String c (re_sub s')
  end.

(** [df["item_code"].str.replace(r"\.P$", "", regex=True)]: every
    string cell is rewritten, a missing cell stays missing. *)
Definition str_replace (col : list (option string)) : list (option string) :=
  map (option_map re_sub) col.

(** [s] ends with [suf]. *)
Fixpoint ends_with (suf s : string) : bool :=
  String.eqb s suf ||
  match s with
  | EmptyString => false
  | String _ s' => ends_with suf s'
  end.

(** The strings that carry a second trailing [.P] behind the one
    [re_sub] removes. *)
Definition doubled_suffix (s : string) : bool :=
  ends_with ".P.P" s
  || ends_with (".P.P" ++ String "010" "") s
  || ends_with (".P" ++ String "010" ".P") s.

End replaceP.

(** ** errorAnalysis.py *)

Module errorAnalysis.

(** [df.drop_duplicates()]: rows are visited in order and a row is
    kept unless an equal row was seen before. *)
Fixpoint drop_duplicates_from {A} `{EqDecision A} (seen l : list A) : list A :=
  match l with
  | [] => []
  | x :: r =>
      if decide (x ∈ seen) then drop_duplicates_from seen r
      else x :: drop_duplicates_from (x :: seen) r
  end.

Definition drop_duplicates {A} `{EqDecision A} (l : list A) : list A :=
  drop_duplicates_from [] l.

(** Lines 11-12: forward fill, then the mean of the forward-filled
    column for what is still missing. *)
Definition impute (col : list value) : list value :=
  let filled := Series.ffill col in
  Series.fillna (Series.mean filled) filled.

Definition set_combined_index (r : item_row) (v : value) : item_row :=
  mk_row (item_code r) (description r) (year r) (month r) v.

(** The script from the loaded table to the table it saves. *)
Definition clean (df : list item_row) : list item_row :=
  let df := drop_duplicates df in
  zip_with set_combined_index df (impute (map combined_index df)).

End errorAnalysis.

(** ** check.py *)

Module check.

(** Lines 20-23 on the [combined_index] column: the quartiles, their
    distance and the mask of the rows outside the Tukey fences. *)
Definition Q1 (col : list value) : value := Series.quantile (Q2Qc (1 # 4)) col.
Definition Q3 (col : list value) : value := Series.quantile (Q2Qc (3 # 4)) col.
Definition IQR (col : list value) : value := Series.sub (Q3 col) (Q1 col).

Definition lower_bound (col : list value) : value :=
  Series.sub (Q1 col) (Series.mul (Some (Q2Qc (3 # 2))) (IQR col)).
Definition upper_bound (col : list value) : value :=
  Series.add (Q3 col) (Series.mul (Some (Q2Qc (3 # 2))) (IQR col)).

Definition is_outlier (col : list value) (v : value) : bool :=
  Series.lt v (lower_bound col) || Series.gt v (upper_bound col).

Definition outliers (col : list value) : list value :=
  filter (fun v => is_outlier col v = true) col.

End check.

(** ** cleanup.py *)

Module cleanup.

(** A cell of a column as [read_csv] loads it: an integer, a string or
    a missing value. *)
Inductive cell : Type :=
  | CInt (z : Z)
  | CStr (s : string)
  | CNaN.

(** [astype(str)] on one cell. *)
Definition astype_str (c : cell) : string :=
  match c with
  | CInt z => str_of_int z
  | CStr s => s
  | CNaN => "nan"
  end.

(** The ASCII characters [str.strip()] removes: tab to carriage
    return, the four separators 28 to 31, and the space. *)
Definition is_space (c : ascii) : bool :=
  let n := nat_of_ascii c in
  ((9 <=? n)%nat && (n <=? 13)%nat) || ((28 <=? n)%nat && (n <=? 32)%nat).

Fixpoint lstrip (s : string) : string :=
  match s with
  | EmptyString => EmptyString
  | String c s' => if is_space c then lstrip s' else s
  end.

Fixpoint rstrip (s : string) : string :=
  match s with
  | EmptyString => EmptyString
  | String c s' =>
      match rstrip s' with
      | EmptyString => if is_space c then EmptyString else String c EmptyString
      | t => String c t
      end
  end.

Definition strip (s : string) : string := rstrip (lstrip s).

Definition digit_of (c : ascii) : option Z :=
  let n := nat_of_ascii c in
  if (48 <=? n)%nat && (n <=? 57)%nat then Some (Z.of_nat (n - 48)) else None.

(** The digits of an [int()] literal: at least one digit, single
    underscores allowed between digits. *)
Fixpoint digits (acc : Z) (after_digit : bool) (s : string) : option Z :=
  match s with
  | EmptyString => if after_digit then Some acc else None
  | String c r =>
      match digit_of c with
      | Some d => digits (10 * acc + d) true r
      | None =>
          if Ascii.eqb c "_" && after_digit then digits acc false r else None
      end
  end.

(** [int(s)]: surrounding whitespace, an optional sign, the digits. *)
Definition int_of_str (s : string) : option Z :=
  match strip s with
  | String "-" r => Z.opp <$> digits 0 false r
  | String "+" r => digits 0 false r
  | r => digits 0 false r
  end.

(** [astype(int)] on one cell; a failure is a [ValueError]. *)
Definition int_of_cell (c : cell) : outcome Z :=
  match c with
  | CInt z => Returned z
  | CStr s =>
      match int_of_str s with
      | Some z => Returned z
      | None => Raised (ValueError "invalid literal for int() with base 10")
      end
  | CNaN => Raised (ValueError "cannot convert float NaN to integer")
  end.

(** [astype(int)] on a column: the first cell that fails raises. *)
Fixpoint astype_int (col : list cell) : outcome (list Z) :=
  match col with
  | [] => Returned []
  | c :: r => z ← int_of_cell c; zs ← astype_int r; mret (z :: zs)
  end.

(** The integers of pandas' [int64], the type [astype(int)] converts
    to.  The embedding keeps Python's unbounded integers: a literal
    outside this range makes the conversion fail with an
    [OverflowError], which [astype_int] does not represent. *)
Definition int64 (z : Z) : Prop := (- 2 ^ 63 <= z < 2 ^ 63)%Z.

(** [[str(i) for i in range(1, 13)]] *)
Definition month_strings : list string :=
  map (fun i => str_of_int (Z.of_nat i)) (seq 1 12).

Definition month_error : exn :=
  ValueError "Some months could not be converted. Check the CSV file for inconsistencies!".

Definition year_error : exn :=
  ValueError "The column 'year' contains non-integer values. Check your CSV file!".

(** Lines 18-21: the month column as trimmed strings, the membership
    test, and the conversion to integers. *)
Definition trimmed (col : list cell) : list string :=
  map (fun c => strip (astype_str c)) col.

Definition convert_month (col : list cell) : outcome (list Z) :=
  let month := trimmed col in
  if forallb (fun s => bool_decide (s ∈ month_strings)) month
  then astype_int (map CStr month)
  else Raised month_error.

(** Lines 12-15: the year column; any [ValueError] is raised again
    with the script's message. *)
Definition convert_year (col : list cell) : outcome (list Z) :=
  match astype_int col with
  | Returned zs => Returned zs
  | Raised (ValueError _) => Raised year_error
  | Raised e => Raised e
  end.

(** The script on the two columns it converts: what [to_csv] saves,
    or the exception that ends the run before anything is saved. *)
Definition run (year_col month_col : list cell) : outcome (list Z * list Z) :=
  y ← convert_year year_col;
  m ← convert_month month_col;
  mret (y, m).

End cleanup.

(** ** model.py: the seasonal chart and the forecast view *)

Module model.

(** A [go.Scatter] trace: its legend name and its points. *)
Record scatter (X : Type) : Type := mk_scatter {
  name : string;
  x : list X;
  y : list value
}.
Arguments mk_scatter {X} name x y.
Arguments name {X} s.
Arguments x {X} s.
Arguments y {X} s.

(** A figure: its title and its traces, in the order they are added. *)
Record figure (X : Type) : Type := mk_figure {
  title : string;
  traces : list (scatter X)
}.
Arguments mk_figure {X} title traces.
Arguments title {X} f.
Arguments traces {X} f.

(** [px.line(title=t)]: a chart without data that shows its title. *)
Definition px_line {X} (t : string) : figure X := mk_figure t [].

(** [f"{item}"] for a selection that may be unset ([None]). *)
Definition fmt_item (item : option string) : string := default "None" item.

(** Lines 442-444 and 789-792: the rows of the selected item within
    the selected years.  A comparison with a missing description, or
    with an unset item, is false. *)
Definition select_rows (item_df : list item_row) (item : option string)
    (years : Z * Z) : list item_row :=
  filter (fun r => is_Some item /\ description r = item
                   /\ (years.1 <= year r)%Z /\ (year r <= years.2)%Z) item_df.

(** The distinct values of a key column in ascending order, as
    [groupby] and [sorted(... .unique())] enumerate them. *)
Definition sorted_unique (l : list Z) : list Z :=
  merge_sort Z.le (errorAnalysis.drop_duplicates l).

(** Lines 479-521: the seasonal chart of the item view. *)
Definition monthly_avg (filtered_df : list item_row) : list (Z * value) :=
  map (fun m => (m, Series.mean (map combined_index
                      (filter (fun r => month r = m) filtered_df))))
      (sorted_unique (map month filtered_df)).

Definition year_traces (filtered_df : list item_row) : list (scatter Z) :=
  omap (fun yr =>
          let year_data := filter (fun r => year r = yr) filtered_df in
          if bool_decide (6 < length year_data)
          then Some (mk_scatter ("Year " ++ str_of_int yr)
                       (map month year_data) (map combined_index year_data))
          else None)
       (sorted_unique (map year filtered_df)).

Definition seasonal_chart (filtered_df : list item_row) (item : option string)
    (item_years : Z * Z) : figure Z :=
  if bool_decide (12 < length filtered_df) then
    let avg := monthly_avg filtered_df in
    mk_figure
      ("Seasonal Pattern for " ++ fmt_item item ++ " ("
         ++ str_of_int item_years.1 ++ "-" ++ str_of_int item_years.2 ++ ")")
      (mk_scatter "Monthly Average" (map fst avg) (map snd avg)
         :: year_traces filtered_df)
  else
    px_line ("Insufficient data for seasonal analysis of " ++ fmt_item item).

(** The item view with [viz_type = 'seasonal']: filter, then chart. *)
Definition item_view_seasonal (item_df : list item_row) (item : option string)
    (item_years : Z * Z) : figure Z :=
  seasonal_chart (select_rows item_df item item_years) item item_years.

(** *** Forecast view *)

(** A month start, as [pd.to_datetime(year-month-01)] builds it. *)
Definition date : Type := Z * Z.

Definition date_of (r : item_row) : date := (year r, month r).

Definition next_month (d : date) : date :=
  if bool_decide (d.2 = 12%Z) then ((d.1 + 1)%Z, 1%Z) else (d.1, (d.2 + 1)%Z).

(** [pd.date_range(start=last_date, periods=n+1, freq='MS')[1:]]: the
    [n] month starts after [last_date]. *)
Fixpoint date_range (last_date : date) (n : nat) : list date :=
  match n with
  | O => []
  | S k => next_month last_date :: date_range (next_month last_date) k
  end.

(** [LinearRegression]: ordinary least squares in one variable, in
    exact arithmetic.  The data are centred; when the centred regressor
    vanishes the minimum-norm solution has slope zero.  The program
    computes this line in binary64; [binary64] below embeds that
    computation with its rounding. *)
Record linear_model : Type := mk_model { coef : Qc; intercept : Qc }.

Definition sq (a : Qc) : Qc := (a * a)%Qc.

Definition average (l : list Qc) : Qc :=
  (Series.total l / Qc_of_Z (Z.of_nat (length l)))%Qc.

Definition fit (X Y : list Qc) : linear_model :=
  let xm := average X in
  let ym := average Y in
  let sxx := Series.total (map (fun a => sq (a - xm)) X) in
  let sxy := Series.total (zip_with (fun a b => (a - xm) * (b - ym))%Qc X Y) in
  let c := if decide (sxx = 0%Qc) then 0%Qc else (sxy / sxx)%Qc in
  mk_model c (ym - c * xm)%Qc.

Definition predict (m : linear_model) (X : list Qc) : list Qc :=
  map (fun a => coef m * a + intercept m)%Qc X.

(** [model.score(X, y)], the coefficient of determination as
    [r2_score] computes it: NaN for fewer than two samples; with a
    constant [y] it is 1 for a perfect prediction and 0 otherwise. *)
Definition score (m : linear_model) (X Y : list Qc) : value :=
  let ym := average Y in
  let numerator := Series.total (zip_with (fun b p => sq (b - p)) Y (predict m X)) in
  let denominator := Series.total (map (fun b => sq (b - ym)) Y) in
  if bool_decide (length Y < 2) then None
  else if decide (denominator = 0%Qc)
       then (if decide (numerator = 0%Qc) then Some 1%Qc else Some 0%Qc)
       else Some (1 - numerator / denominator)%Qc.

(** [np.array(range(a, a + n))] as a column of regressor values. *)
Definition arange (a n : nat) : list Qc :=
  map (fun i => Qc_of_Z (Z.of_nat i)) (seq a n).

(** [np.tile(v, n)] *)
Definition tile (v : value) (n : nat) : list value := replicate n v.

(** The numbers of the insight panel.  [fit_quality] holds the slope
    and R² of the linear method and is absent for the other two. *)
Record forecast_numbers : Type := mk_numbers {
  last_historical : value;
  forecast_end : value;
  forecast_change : value;
  forecast_percent : value;
  fit_quality : option (Qc * value)
}.

Inductive insights : Type :=
  | Message (text : string)
  | Numbers (method_name : string) (n : forecast_numbers).

(** Lines 871-874 (and their copies in the other two branches).
    [forecast_values[-1]] raises on an empty array. *)
Definition summarize (method_name : string) (Y forecast_values : list value)
    (q : option (Qc * value)) : outcome insights :=
  match last forecast_values with
  | None => Raised IndexError
  | Some forecast_end =>
      let last_historical := Series.iloc_last Y in
      let forecast_change := Series.sub forecast_end last_historical in
      let forecast_percent :=
        if Series.gt last_historical (Some 0%Qc)
        then Series.mul (Series.lift2 Qcdiv forecast_change last_historical)
                        (Some (Qc_of_Z 100))
        else Some 0%Qc in
      Returned (Numbers method_name
                  (mk_numbers last_historical forecast_end forecast_change
                              forecast_percent q))
  end.

Definition forecast_title (forecast_item : option string) : string :=
  "Price Index Forecast for " ++ fmt_item forecast_item.

(** Lines 796-797: the answer to an empty selection. *)
Definition no_data : figure date * insights :=
  (px_line "No data available for the selected parameters",
   Message "No data available for forecasting").

(** Lines 795-1058.  [filtered_df] is the selection sorted by date.
    The fourth trace of the linear chart, the band of plus and minus
    1.96 residual standard deviations, needs a square root and is not
    part of the embedded figure. *)
Definition forecast_view (filtered_df : list item_row)
    (forecast_item : option string) (forecast_period : nat)
    (forecast_method : string) : outcome (figure date * insights) :=
  match last filtered_df with
  | None => Returned no_data
  | Some last_row =>
      let dates := map date_of filtered_df in
      let Y := map combined_index filtered_df in
      let forecast_dates := date_range (date_of last_row) forecast_period in
      let historical := mk_scatter "Historical Data" dates Y in
      if String.eqb forecast_method "linear" then
        match mapM id Y with
        | None => Raised (ValueError "Input y contains NaN.")
        | Some Yq =>
            let X := arange 0 (length filtered_df) in
            let m := fit X Yq in
            let historical_pred := predict m X in
            match forecast_period with
            | O => Raised (ValueError "Found array with 0 sample(s)")
            | S _ =>
                let future_X := arange (length filtered_df) forecast_period in
                let forecast_values := Some <$> predict m future_X in
                ins ← summarize "Linear Regression" Y forecast_values
                      (Some (coef m, score m X Yq));
                mret (mk_figure (forecast_title forecast_item)
                        [historical;
                         mk_scatter "Model Fit" dates (Some <$> historical_pred);
                         mk_scatter "Forecast" forecast_dates forecast_values],
                      ins)
            end
        end
      else if String.eqb forecast_method "ma" then
        let window_size := forecast_period / 2 in
        let moving_avg := Series.rolling_mean window_size Y in
        let forecast_values := tile (Series.iloc_last moving_avg) forecast_period in
        ins ← summarize "Moving Average" Y forecast_values None;
        mret (mk_figure (forecast_title forecast_item)
                [historical;
                 mk_scatter "Moving Average" dates moving_avg;
                 mk_scatter "Forecast" forecast_dates forecast_values],
              ins)
      else if String.eqb forecast_method "exp" then
        let alpha := Q2Qc (2 # 10) in
        let exp_smooth := Series.ewm_mean alpha Y in
        let forecast_values := tile (Series.iloc_last exp_smooth) forecast_period in
        ins ← summarize "Exponential Smoothing" Y forecast_values None;
        mret (mk_figure (forecast_title forecast_item)
                [historical;
                 mk_scatter "Exponential Smoothing" dates exp_smooth;
                 mk_scatter "Forecast" forecast_dates forecast_values],
              ins)
      else Raised UnboundLocalError
  end.

(** The forecast trace of a returned view. *)
Definition forecast_of (r : outcome (figure date * insights)) : option (list value) :=
  match r with
  | Returned (fig, _) =>
      y <$> (snd <$> list_find (fun t => name t = "Forecast") (traces fig))
  | Raised _ => None
  end.

End model.

(** ** check.py: duplicate count and item-code validation *)

Module check_report.

(** [df.duplicated()]: the mask that is true on every row equal to an
    earlier one. *)
Fixpoint duplicated_from {A} `{EqDecision A} (seen l : list A) : list bool :=
  match l with
  | [] => []
  | x :: r =>
      if decide (x ∈ seen) then true :: duplicated_from seen r
      else false :: duplicated_from (x :: seen) r
  end.

Definition duplicated {A} `{EqDecision A} (l : list A) : list bool :=
  duplicated_from [] l.

(** [df[mask]]: the rows on which a boolean mask is true. *)
Fixpoint select {A} (l : list A) (mask : list bool) : list A :=
  match l, mask with
  | x :: r, b :: m => if b then x :: select r m else select r m
  | _, _ => []
  end.

(** Lines 12-13: the rows reported as duplicates. *)
Definition duplicate_rows {A} `{EqDecision A} (df : list A) : list A :=
  select df (duplicated df).

(** Line 8 on one float column: the number of missing cells. *)
Definition missing_values (col : list value) : nat :=
  length (filter (fun v => v = None) col).

(** The pieces of the pattern of line 27: a character class repeated
    one or more times, or one literal character. *)
Inductive atom : Type :=
  | Plus (cls : ascii -> bool)
  | Lit (c : ascii).

(** [\d] and [\w] on ASCII characters. *)
Definition is_digit (c : ascii) : bool :=
  let n := nat_of_ascii c in (48 <=? n)%nat && (n <=? 57)%nat.

Definition is_word (c : ascii) : bool :=
  let n := nat_of_ascii c in
  is_digit c || ((65 <=? n)%nat && (n <=? 90)%nat)
  || ((97 <=? n)%nat && (n <=? 122)%nat) || (n =? 95)%nat.

(** Backtracking match of a sequence of atoms from the start of [s]
    (as [str.match] anchors it) followed by [$]. *)
Fixpoint re_match (s : string) (p : list atom) {struct s} : bool :=
  match p with
  | [] => replaceP.at_dollar s
  | Lit c :: p' =>
      match s with
      | String d s' => Ascii.eqb d c && re_match s' p'
      | EmptyString => false
      end
  | Plus cls :: p' =>
      match s with
      | String d s' => cls d && (re_match s' p || re_match s' p')
      | EmptyString => false
      end
  end.

(** [^\d+\.\d+\.\d+\.\d+\.\d+\.\w+$] *)
Definition item_code_pattern : list atom :=
  [Plus is_digit; Lit "."; Plus is_digit; Lit "."; Plus is_digit; Lit ".";
   Plus is_digit; Lit "."; Plus is_digit; Lit "."; Plus is_word].

(** [str.match(pattern, na=False)] on one cell. *)
Definition valid_code (c : option string) : bool :=
  match c with
  | Some s => re_match s item_code_pattern
  | None => false
  end.

(** Line 27: the codes reported as invalid. *)
Definition invalid_codes (col : list (option string)) : list (option string) :=
  filter (fun c => valid_code c = false) col.

(** The number of dots of a string. *)
Fixpoint dots (s : string) : nat :=
  match s with
  | EmptyString => 0
  | String c s' => (if Ascii.eqb c "." then 1 else 0) + dots s'
  end.

(** The atoms of a pattern whose classes reject the dot and whose
    literals are dots. *)
Definition dot_free (a : atom) : Prop :=
  match a with
  | Plus cls => cls "."%char = false
  | Lit c => c = "."%char
  end.

(** The number of literal atoms of a pattern. *)
Fixpoint literals (p : list atom) : nat :=
  match p with
  | [] => 0
  | Lit _ :: p' => S (literals p')
  | Plus _ :: p' => literals p'
  end.

End check_report.

(** ** Column names ([cleanup.py] line 8, [cleanup2.py] line 7) *)

Module columns.

Fixpoint string_map (f : ascii -> ascii) (s : string) : string :=
  match s with
  | EmptyString => EmptyString
  | String c s' => String (f c) (string_map f s')
  end.

(** [str.lower()] on ASCII characters. *)
Definition lower_char (c : ascii) : ascii :=
  let n := nat_of_ascii c in
  if (65 <=? n)%nat && (n <=? 90)%nat then ascii_of_nat (n + 32) else c.

(** [str.replace(a, b)] for one-character [a] and [b]. *)
Definition replace_char (a b c : ascii) : ascii :=
  if Ascii.eqb c a then b else c.

(** [.str.lower().str.replace(" ", "_").str.replace("-", "_")] *)
Definition standardize_char (c : ascii) : ascii :=
  replace_char "-" "_" (replace_char " " "_" (lower_char c)).

Definition standardize (name : string) : string :=
  string_map standardize_char name.

(** [cleanup2.py] strips the name first. *)
Definition standardize2 (name : string) : string :=
  standardize (cleanup.strip name).

Definition is_upper (c : ascii) : bool :=
  let n := nat_of_ascii c in (65 <=? n)%nat && (n <=? 90)%nat.

(** A name of ASCII characters only.  On these [lower_char] is
    [str.lower()]; outside ASCII Python lower-cases by Unicode rules,
    which can even change the number of characters. *)
Definition ascii_only (s : string) : bool :=
  forallb (fun c => (nat_of_ascii c <? 128)%nat) (list_ascii_of_string s).

(** No character of [s] satisfies [bad]. *)
Fixpoint free_of (bad : ascii -> bool) (s : string) : bool :=
  match s with
  | EmptyString => true
  | String c s' => negb (bad c) && free_of bad s'
  end.

End columns.

(** ** cleanup2.py *)

Module cleanup2.
Import cleanup.

(** A row of the state table as loaded. *)
Record state_raw : Type := mk_raw {
  state : option string;
  year : cell;
  month : cell;
  rural : value;
  urban : value;
  combined : value
}.

#[export] Instance cell_eq_dec : EqDecision cell.
Proof. solve_decision. Defined.

#[export] Instance state_raw_eq_dec : EqDecision state_raw.
Proof. solve_decision. Defined.

(** Lines 10-13. *)
Definition month_names : list (string * Z) :=
  [("January", 1); ("February", 2); ("March", 3); ("April", 4); ("May", 5);
   ("June", 6); ("July", 7); ("August", 8); ("September", 9);
   ("October", 10); ("November", 11); ("December", 12)]%Z.

Definition month_mapping : gmap string Z := list_to_map month_names.

(** [Series.replace(month_mapping)] on one cell: a cell equal to a key
    becomes the number; any other cell is kept. *)
Definition replace_month (c : cell) : cell :=
  match c with
  | CStr s => match month_mapping !! s with Some z => CInt z | None => c end
  | _ => c
  end.

(** Lines 16-19 on the month column. *)
Definition convert_month (col : list cell) : outcome (list Z) :=
  astype_int (map replace_month col).

Definition set_month (r : state_raw) (z : Z) : state_raw :=
  mk_raw (state r) (year r) (CInt z) (rural r) (urban r) (combined r).

(** A row [dropna] keeps: no cell of it is missing. *)
Definition complete (r : state_raw) : Prop :=
  is_Some (state r) /\ year r <> CNaN /\ month r <> CNaN
  /\ is_Some (rural r) /\ is_Some (urban r) /\ is_Some (combined r).

#[export] Instance complete_dec (r : state_raw) : Decision (complete r).
Proof. unfold complete. apply _. Defined.

(** Lines 16-25: the table that is saved, or the exception of the month
    conversion. *)
Definition run (df : list state_raw) : outcome (list state_raw) :=
  months ← convert_month (map month df);
  mret (errorAnalysis.drop_duplicates
          (filter complete (zip_with set_month df months))).

End cleanup2.

(** ** model.py: quantities used to state the further properties *)

Module regression.
Import model.

(** The sum of squared residuals of a line on the samples. *)
Definition sse (m : linear_model) (X Y : list Qc) : Qc :=
  Series.total (zip_with (fun a b => sq (b - (coef m * a + intercept m))) X Y).

(** The position of a month on the time axis, in months. *)
Definition month_index (d : date) : Z := (12 * d.1 + (d.2 - 1))%Z.

End regression.

(** ** model.py: insight numbers of the item view (lines 523-532) *)

Module item_insights.

(** [iloc[0]] and [iloc[-1]] of the column, 0 on an empty selection. *)
Definition start_val (Y : list value) : value :=
  match Y with
  | [] => Some 0%Qc
  | v :: _ => v
  end.

Definition end_val (Y : list value) : value :=
  match last Y with
  | None => Some 0%Qc
  | Some v => v
  end.

Definition total_change (Y : list value) : value :=
  Series.sub (end_val Y) (start_val Y).

Definition percent_change (Y : list value) : value :=
  if Series.gt (start_val Y) (Some 0%Qc)
  then Series.mul (Series.lift2 Qcdiv (total_change Y) (start_val Y))
                  (Some (Qc_of_Z 100))
  else Some 0%Qc.



End item_insights.

(** ** model.py: the period shown on the landing map (lines 1072-1078) *)

Module landing.

(** A row of the state table. *)
Record state_row : Type := mk_state {
  state : option string;
  year : Z;
  month : Z;
  rural : value;
  urban : value;
  combined : value
}.

(** [Series.max()] of an integer column; NaN on an empty column. *)
Definition col_max (l : list Z) : option Z :=
  match l with
  | [] => None
  | z :: r => Some (foldr Z.max z r)
  end.

Definition latest_year (state_df : list state_row) : option Z :=
  col_max (map year state_df).

Definition latest_month (state_df : list state_row) : option Z :=
  col_max (map month
             (filter (fun r => Some (year r) = latest_year state_df) state_df)).

Definition map_df (state_df : list state_row) : list state_row :=
  filter (fun r => Some (year r) = latest_year state_df
                   /\ Some (month r) = latest_month state_df) state_df.

End landing.

(** ** model.py: the linear method on binary64 numbers *)

Module binary64.
Import PrimFloat.

(** A count or a period index as a float. *)
Definition of_nat (n : nat) : float := of_uint63 (Uint63.of_Z (Z.of_nat n)).

(** [np.array(range(a, a + n))] as the regressor column. *)
Definition arange (a n : nat) : list float := map of_nat (seq a n).

(** The sum of an array, added up from left to right as numpy does for
    an array of fewer than eight numbers. *)
Definition sum (l : list float) : float := foldl add 0%float l.

(** [np.average] *)
Definition average (l : list float) : float :=
  (sum l / of_nat (length l))%float.

Definition centred (l : list float) : list float :=
  map (fun a => a - average l)%float l.

Record linear_model : Type := mk_model { coef : float; intercept : float }.

(** [LinearRegression().fit(X, y)]: the regressor and the target are
    centred on their averages, the solver returns the slope of the
    centred data, and the intercept is the average of the target minus
    the average of the regressor times the slope.  The solver is a
    parameter. *)
Definition fit (solve : list float -> list float -> float)
    (X Y : list float) : linear_model :=
  let slope := solve (centred X) (centred Y) in
  mk_model slope (average Y - average X * slope)%float.


(** [model.predict(X)]: each regressor value times the slope, plus the
    intercept. *)
Definition predict (m : linear_model) (X : list float) : list float :=
  map (fun a => a * coef m + intercept m)%float X.

(** [model.score(X, y)] as [r2_score] computes it: 1 when the residual
    sum of squares is zero, 0 when only the total sum of squares is
    zero, and one minus their quotient otherwise; NaN for fewer than
    two samples. *)
Definition score (m : linear_model) (X Y : list float) : float :=
  let ym := average Y in
  let numerator :=
    sum (zip_with (fun b p => (b - p) * (b - p))%float Y (predict m X)) in
  let denominator := sum (map (fun b => (b - ym) * (b - ym))%float Y) in
  if (length Y <? 2)%nat then nan
  else if eqb numerator 0 then 1%float
  else if eqb denominator 0 then 0%float
  else (1 - numerator / denominator)%float.


End binary64.

(** ** Sample data *)

(** Twelve rows of one item, one per month of 2020. *)
Definition twelve_months : list item_row :=
  map (fun m => mk_row (Some "1.1.01.1.11.X") (Some "Rice") 2020 m
                  (Series.num (100 + m)))
      [1; 2; 3; 4; 5; 6; 7; 8; 9; 10; 11; 12]%Z.

(** Rows of one item in consecutive months of 2020 with the given index
    values. *)
Definition rows_of (values : list Z) : list item_row :=
  imap (fun i v => mk_row (Some "1.1.01.1.11.X") (Some "Rice") 2020
                     (Z.of_nat i + 1) (Series.num v)) values.

(** * Properties *)

(** ** Suffix stripping ([replaceP.py]) *)

Section replaceP_facts.
Import replaceP.

Lemma app_nil_string (s : string) : "" ++ s = s.
Proof. reflexivity. Qed.

Lemma app_cons_string (c : ascii) (p s : string) :
  String c p ++ s = String c (p ++ s).
Proof. reflexivity. Qed.

Lemma app_assoc_string (a b c : string) : (a ++ b) ++ c = a ++ b ++ c.
Proof.
  induction a as [|x a IH]; [done|].
  by rewrite !app_cons_string, IH.
Qed.

Ltac unfold_app H := rewrite ?app_cons_string, ?app_nil_string in H.

Lemma ends_with_app (suf p : string) : ends_with suf (p ++ suf) = true.
Proof.
  induction p as [|c p IH].
  - rewrite app_nil_string.
    destruct suf; cbn [ends_with]; by rewrite String.eqb_refl.
  - rewrite app_cons_string.
    cbn [ends_with]. rewrite IH. by rewrite orb_true_r.
Qed.

Lemma ends_with_split (suf s : string) :
  ends_with suf s = true -> exists p, s = p ++ suf.
Proof.
  induction s as [|c s IH]; cbn [ends_with].
  - rewrite orb_false_r. intros H%String.eqb_eq. by exists "".
  - intros [H%String.eqb_eq|H]%orb_true_iff.
    + by exists "".
    + destruct (IH H) as [p ->]. by exists (String c p).
Qed.

Lemma ends_with_tail (suf : string) (c : ascii) (s : string) :
  ends_with suf (String c s) = false -> ends_with suf s = false.
Proof. cbn [ends_with]. by intros [_ ?]%orb_false_iff. Qed.

(** Where the pattern matches at the head, the string is the match
    itself, with or without the final newline. *)
Lemma match_here_inv (s : string) :
  match_here s = true -> s = ".P" \/ s = ".P" ++ String "010" "".
Proof.
  destruct s as [|c [|d rest]]; simpl; try done.
  - by repeat case_match.
  - intros H.
    assert (c = "."%char /\ d = "P"%char /\ at_dollar rest = true) as (-> & -> & Hd).
    { repeat case_match; try done. }
    destruct rest as [|e [|? ?]]; simpl in Hd; try done; [by left|].
    apply Ascii.eqb_eq in Hd as ->. by right.
Qed.

(** A string without a trailing match is left as it is. *)
Lemma re_sub_no_match (s : string) :
  ends_with ".P" s = false ->
  ends_with (".P" ++ String "010" "") s = false ->
  re_sub s = s.
Proof.
  induction s as [|c s IH]; [done|]. intros H1 H2.
  cbn [re_sub]. destruct (match_here (String c s)) eqn:Hm.
  - apply match_here_inv in Hm as [Hm|Hm]; rewrite Hm in *; done.
  - f_equal. apply IH; by eapply ends_with_tail.
Qed.

Lemma re_sub_strips (p : string) : re_sub (p ++ ".P") = p.
Proof.
  induction p as [|c p IH]; [done|].
  rewrite app_cons_string. cbn [re_sub]. destruct (match_here (String c (p ++ ".P"))) eqn:Hm.
  - apply match_here_inv in Hm as [Hm|Hm]; exfalso;
      destruct p as [|? [|? [|? ?]]]; unfold_app Hm; congruence.
  - by rewrite IH.
Qed.

Lemma re_sub_strips_newline (p : string) :
  re_sub (p ++ ".P" ++ String "010" "") = p ++ String "010" "".
Proof.
  induction p as [|c p IH]; [done|].
  rewrite app_cons_string. cbn [re_sub].
  destruct (match_here (String c (p ++ ".P" ++ String "010" ""))) eqn:Hm.
  - apply match_here_inv in Hm as [Hm|Hm]; exfalso;
      destruct p as [|? [|? [|? ?]]]; unfold_app Hm; congruence.
  - by rewrite IH.
Qed.

Lemma re_sub_keeps_newline (p : string) :
  ends_with ".P" p = false ->
  re_sub (p ++ String "010" "") = p ++ String "010" "".
Proof.
  induction p as [|c p IH]; [done|]. intros H.
  rewrite app_cons_string. cbn [re_sub].
  destruct (match_here (String c (p ++ String "010" ""))) eqn:Hm.
  - apply match_here_inv in Hm as [Hm|Hm]; exfalso.
    + destruct p as [|? [|? ?]]; unfold_app Hm; by simplify_eq.
    + destruct p as [|? [|? [|? ?]]]; unfold_app Hm; by simplify_eq.
  - rewrite IH; [done|]. by eapply ends_with_tail.
Qed.

(** Behind a doubled suffix each application removes one [.P]. *)
Lemma re_sub_doubled (p : string) :
  re_sub (p ++ ".P.P") = p ++ ".P" /\ re_sub (re_sub (p ++ ".P.P")) = p.
Proof.
  assert (re_sub (p ++ ".P.P") = p ++ ".P") as E.
  { change ".P.P" with (".P" ++ ".P").
    by rewrite <- app_assoc_string, re_sub_strips. }
  split; [done|]. by rewrite E, re_sub_strips.
Qed.

(** C3 (counterexample): a code that carries the suffix twice loses one
    [.P] per application, so stripping twice differs from stripping
    once. *)
Lemma re_sub_not_idempotent :
  re_sub "1.1.01.1.11.X.P.P" = "1.1.01.1.11.X.P"
  /\ re_sub (re_sub "1.1.01.1.11.X.P.P") = "1.1.01.1.11.X"
  /\ ~ (forall s : string, re_sub (re_sub s) = re_sub s).
Proof.
  split; [reflexivity|]. split; [reflexivity|].
  intros H. specialize (H "1.1.01.1.11.X.P.P"). vm_compute in H. congruence.
Qed.

(** C3 (amended): the substitution removes one trailing [.P]; on every
    item code that does not carry the suffix twice (no [.P.P] at its
    end, nor the variants with a final newline) stripping twice yields
    the same string as stripping once. *)
Theorem re_sub_idempotent (s : string) :
  doubled_suffix s = false ->
  re_sub (re_sub s) = re_sub s.
Proof.
  unfold doubled_suffix. intros [[H1 H2]%orb_false_iff H3]%orb_false_iff.
  destruct (ends_with ".P" s) eqn:E1.
  - apply ends_with_split in E1 as [p ->]. rewrite re_sub_strips.
    apply re_sub_no_match.
    + destruct (ends_with ".P" p) eqn:E; [|done].
      apply ends_with_split in E as [q ->].
      rewrite app_assoc_string in H1.
      change (".P" ++ ".P") with ".P.P" in H1.
      by rewrite ends_with_app in H1.
    + destruct (ends_with (".P" ++ String "010" "") p) eqn:E; [|done].
      apply ends_with_split in E as [q ->].
      rewrite app_assoc_string in H3.
      by rewrite ends_with_app in H3.
  - destruct (ends_with (".P" ++ String "010" "") s) eqn:E2.
    + apply ends_with_split in E2 as [p ->]. rewrite re_sub_strips_newline.
      apply re_sub_keeps_newline.
      destruct (ends_with ".P" p) eqn:E; [|done].
      apply ends_with_split in E as [q ->].
      rewrite app_assoc_string in H2.
      by rewrite ends_with_app in H2.
    + by rewrite !(re_sub_no_match s E1 E2).
Qed.

Lemma re_sub_idempotent_witness :
  doubled_suffix "1.1.01.1.11.X.P" = false
  /\ re_sub (re_sub "1.1.01.1.11.X.P") = re_sub "1.1.01.1.11.X.P".
Proof. split; [reflexivity | apply re_sub_idempotent; reflexivity]. Defined.

End replaceP_facts.

(** ** De-duplication and imputation ([errorAnalysis.py]) *)

Section errorAnalysis_facts.
Import errorAnalysis.
Context {A : Type} `{EqDecision A}.

(** What [drop_duplicates_from] keeps: rows of the input that were not
    seen before, each of them once. *)
Lemma drop_duplicates_from_elem (seen l : list A) (x : A) :
  x ∈ drop_duplicates_from seen l <-> x ∈ l /\ x ∉ seen.
Proof.
  revert seen. induction l as [|y r IH]; intros seen; cbn [drop_duplicates_from].
  - split; [by intros ?%elem_of_nil | by intros [?%elem_of_nil _]].
  - destruct (decide (y ∈ seen)) as [Hy|Hy].
    + rewrite IH, elem_of_cons. split; [tauto|].
      intros [[->|?] ?]; tauto.
    + rewrite !elem_of_cons, IH, not_elem_of_cons.
      split; [intros [->|(? & ? & ?)]; tauto|].
      intros [[->|?] ?]; [by left|].
      destruct (decide (x = y)) as [->|]; [by left | right; tauto].
Qed.

Lemma drop_duplicates_from_NoDup (seen l : list A) :
  NoDup (drop_duplicates_from seen l).
Proof.
  revert seen. induction l as [|y r IH]; intros seen; cbn [drop_duplicates_from].
  - constructor.
  - destruct (decide (y ∈ seen)); [apply IH|].
    constructor; [|apply IH].
    rewrite drop_duplicates_from_elem, not_elem_of_cons. tauto.
Qed.

(** The kept rows stand in their original order. *)
Lemma drop_duplicates_from_sublist (seen l : list A) :
  sublist (drop_duplicates_from seen l) l.
Proof.
  revert seen. induction l as [|y r IH]; intros seen; cbn [drop_duplicates_from].
  - constructor.
  - destruct (decide (y ∈ seen)); [apply sublist_cons | apply sublist_skip]; apply IH.
Qed.

(** A table without duplicates, none of whose rows was seen, is kept
    whole. *)
Lemma drop_duplicates_from_fixed (seen l : list A) :
  NoDup l -> (forall x, x ∈ l -> x ∉ seen) ->
  drop_duplicates_from seen l = l.
Proof.
  revert seen. induction l as [|y r IH]; intros seen Hnd Hs; [done|].
  cbn [drop_duplicates_from]. apply NoDup_cons in Hnd as [Hy Hnd].
  destruct (decide (y ∈ seen)) as [Hin|_].
  - exfalso. apply (Hs y); [by left | done].
  - f_equal. apply IH; [done|].
    intros x Hx. rewrite not_elem_of_cons. split.
    + by intros ->.
    + apply Hs. by right.
Qed.

(** C8: de-duplication is idempotent: a second application returns the
    same rows, hence the same row count, as the first. *)
Theorem drop_duplicates_idempotent (df : list A) :
  drop_duplicates (drop_duplicates df) = drop_duplicates df
  /\ length (drop_duplicates (drop_duplicates df)) = length (drop_duplicates df).
Proof.
  assert (drop_duplicates (drop_duplicates df) = drop_duplicates df) as E.
  { unfold drop_duplicates. apply drop_duplicates_from_fixed.
    - apply drop_duplicates_from_NoDup.
    - intros x _. apply not_elem_of_nil. }
  by rewrite E.
Qed.

End errorAnalysis_facts.

Section impute_facts.
Import errorAnalysis.

Lemma length_ffill_from (last : value) (l : list value) :
  length (Series.ffill_from last l) = length l.
Proof.
  revert last. induction l as [|[v|] r IH]; intros last; simpl; [done| |];
    by rewrite IH.
Qed.

(** A non-missing cell survives the forward fill. *)
Lemma ffill_from_present (last : value) (l : list value) (i : nat) (v : Qc) :
  l !! i = Some (Some v) -> Series.ffill_from last l !! i = Some (Some v).
Proof.
  revert last i. induction l as [|[w|] r IH]; intros last [|i] Hi;
    simpl in *; try done; by apply IH.
Qed.

(** A missing cell takes the nearest non-missing value above it, or
    the seed of the fill when there is none. *)
Lemma ffill_from_missing (last : value) (l : list value) (i : nat) :
  l !! i = Some None ->
  (exists j v, j < i /\ l !! j = Some (Some v)
     /\ (forall k, j < k < i -> l !! k = Some None)
     /\ Series.ffill_from last l !! i = Some (Some v))
  \/ ((forall j, j < i -> l !! j = Some None)
      /\ Series.ffill_from last l !! i = Some last).
Proof.
  revert last i. induction l as [|x r IH]; intros last i Hi; [done|].
  destruct i as [|i].
  - simpl in Hi. injection Hi as ->. right. split; [intros; lia | reflexivity].
  - simpl in Hi. destruct x as [w|]; simpl.
    + destruct (IH (Some w) i Hi) as [(j & v & Hj & Hv & Hgap & Hr)|[Hall Hr]].
      * left. exists (S j), v. split_and!; [lia|done| |done].
        intros [|k] Hk; [lia|]. simpl. apply Hgap. lia.
      * left. exists 0, w. split_and!; [lia|reflexivity| |done].
        intros [|k] Hk; [lia|]. simpl. apply Hall. lia.
    + destruct (IH last i Hi) as [(j & v & Hj & Hv & Hgap & Hr)|[Hall Hr]].
      * left. exists (S j), v. split_and!; [lia|done| |done].
        intros [|k] Hk; [lia|]. simpl. apply Hgap. lia.
      * right. split; [|done].
        intros [|j] Hj; [done|]. simpl. apply Hall. lia.
Qed.

Lemma lookup_fillna (m : value) (l : list value) (i : nat) :
  Series.fillna m l !! i =
    match l !! i with
    | Some None => Some m
    | c => c
    end.
Proof.
  unfold Series.fillna. rewrite list_lookup_fmap.
  by destruct (l !! i) as [[?|]|].
Qed.

Lemma mean_of_is_Some (l : list Qc) : l <> [] -> is_Some (Series.mean_of l).
Proof. destruct l; [done|]. by eexists. Qed.

(** The forward-filled column has a mean as soon as the column has one
    value. *)
Lemma mean_ffill_is_Some (col : list value) (i : nat) (v : Qc) :
  col !! i = Some (Some v) -> is_Some (Series.mean (Series.ffill col)).
Proof.
  intros Hi. apply mean_of_is_Some. intros E.
  apply (ffill_from_present None) in Hi.
  assert (v ∈ Series.dropna (Series.ffill col)) as Hin.
  { unfold Series.dropna. apply list_elem_of_omap. exists (Some v).
    split; [|done]. by eapply list_elem_of_lookup_2. }
  rewrite E in Hin. by apply elem_of_nil in Hin.
Qed.

(** C2 (counterexample): a column without any value has no mean, so
    the cell is still missing after both fills. *)
Lemma impute_all_missing :
  impute [None; None] = [None; None]
  /\ ~ (forall col : list value, Forall is_Some (impute col)).
Proof.
  split; [reflexivity|]. intros H. specialize (H [None]).
  apply Forall_cons in H as [[? H] _]. discriminate H.
Qed.

(** C2 (amended): for a column with at least one non-missing value,
    after forward fill and mean fill no cell is missing, the cells
    that had a value keep it, and every cell that was missing holds
    either the nearest non-missing value of a strictly earlier row, or
    the mean of the forward-filled column, the latter exactly when no
    earlier row has a value. *)
Theorem impute_spec (col : list value) :
  (exists i v, col !! i = Some (Some v)) ->
  length (impute col) = length col
  /\ Forall is_Some (impute col)
  /\ (forall i v, col !! i = Some (Some v) -> impute col !! i = Some (Some v))
  /\ (forall i, col !! i = Some None ->
        (exists j v, j < i /\ col !! j = Some (Some v)
           /\ (forall k, j < k < i -> col !! k = Some None)
           /\ impute col !! i = Some (Some v))
        \/ ((forall j, j < i -> col !! j = Some None)
            /\ impute col !! i = Some (Series.mean (Series.ffill col)))).
Proof.
  intros (i0 & v0 & H0).
  destruct (mean_ffill_is_Some col i0 v0 H0) as [m Hm].
  unfold impute. rewrite Hm. repeat split.
  - unfold Series.fillna, Series.ffill.
    by rewrite length_fmap, length_ffill_from.
  - apply Forall_lookup_2. intros i x. rewrite lookup_fillna.
    destruct (Series.ffill col !! i) as [[?|]|]; intros; by simplify_eq.
  - intros i v Hi. rewrite lookup_fillna. unfold Series.ffill.
    by rewrite (ffill_from_present None col i v Hi).
  - intros i Hi. rewrite lookup_fillna.
    destruct (ffill_from_missing None col i Hi)
      as [(j & v & Hj & Hv & Hgap & Hr)|[Hall Hr]];
      unfold Series.ffill; rewrite Hr.
    + left. by exists j, v.
    + by right.
Qed.

(** The mean is taken after the forward fill: here over 4, 4, 7. *)
Example impute_example :
  impute [None; Series.num 4; None; Series.num 7]
  = [Series.num 5; Series.num 4; Series.num 4; Series.num 7].
Proof. apply (bool_decide_unpack _). by vm_compute. Qed.

Lemma impute_spec_witness :
  (exists i v, [None; Series.num 4; None; Series.num 8] !! i = Some (Some v))
  /\ Forall is_Some (impute [None; Series.num 4; None; Series.num 8]).
Proof.
  assert (exists i v, [None; Series.num 4; None; Series.num 8] !! i = Some (Some v)) as H.
  { exists 1, (Qc_of_Z 4). reflexivity. }
  split; [exact H|]. apply (impute_spec _ H).
Defined.

(** The saved table carries the imputed column of the de-duplicated
    table. *)
Lemma clean_combined_index (df : list item_row) :
  map combined_index (clean df)
  = impute (map combined_index (drop_duplicates df)).
Proof.
  unfold clean. set (d := drop_duplicates df).
  assert (length (impute (map combined_index d)) = length d) as Hlen.
  { unfold impute, Series.fillna, Series.ffill.
    by rewrite length_fmap, length_ffill_from, length_fmap. }
  revert Hlen. generalize (impute (map combined_index d)).
  induction d as [|r d IH]; intros [|v vs] Hlen; simpl in *; try done.
  f_equal. apply IH. lia.
Qed.

End impute_facts.

(** ** Outlier report ([check.py]) *)

Section check_facts.
Import check.

(** C9: on the series 10, 12, 11, 13, 200 the quartiles are 11 and 13,
    their distance is 2, the upper fence is 13 + 3 = 16, and the rule
    flags 200 and none of the other four values. *)
Theorem tukey_example :
  Q1 (map Series.num [10; 12; 11; 13; 200]%Z) = Series.num 11
  /\ Q3 (map Series.num [10; 12; 11; 13; 200]%Z) = Series.num 13
  /\ IQR (map Series.num [10; 12; 11; 13; 200]%Z) = Series.num 2
  /\ upper_bound (map Series.num [10; 12; 11; 13; 200]%Z) = Series.num 16
  /\ lower_bound (map Series.num [10; 12; 11; 13; 200]%Z) = Series.num 8
  /\ map (is_outlier (map Series.num [10; 12; 11; 13; 200]%Z))
         (map Series.num [10; 12; 11; 13; 200]%Z)
     = [false; false; false; false; true]
  /\ outliers (map Series.num [10; 12; 11; 13; 200]%Z) = [Series.num 200].
Proof.
  split_and!; apply (bool_decide_unpack _); by vm_compute.
Qed.

(** A value is flagged exactly when it lies strictly outside the two
    fences; a missing value is never flagged. *)
Lemma is_outlier_iff (col : list value) (v lo hi : Qc) :
  lower_bound col = Some lo -> upper_bound col = Some hi ->
  is_outlier col (Some v) = true <-> (v < lo)%Qc \/ (hi < v)%Qc.
Proof.
  intros Hlo Hhi. unfold is_outlier, Series.gt, Series.lt.
  rewrite Hlo, Hhi, orb_true_iff, !bool_decide_eq_true. done.
Qed.

Lemma is_outlier_missing (col : list value) : is_outlier col None = false.
Proof. unfold is_outlier, Series.gt, Series.lt. by destruct (upper_bound col). Qed.

End check_facts.

(** ** Month conversion ([cleanup.py]) *)

Section cleanup_facts.
Import cleanup.

Lemma month_strings_eq :
  month_strings = ["1"; "2"; "3"; "4"; "5"; "6"; "7"; "8"; "9"; "10"; "11"; "12"].
Proof. reflexivity. Qed.

(** Each of the twelve accepted strings reads as the number it
    spells. *)
Lemma int_of_month_string (s : string) :
  s ∈ month_strings ->
  exists z, int_of_str s = Some z /\ (1 <= z <= 12)%Z /\ str_of_int z = s.
Proof.
  rewrite month_strings_eq. intros H.
  repeat (apply elem_of_cons in H as [->|H]; [eexists; by vm_compute|]).
  by apply elem_of_nil in H.
Qed.

Lemma forallb_month (l : list string) :
  forallb (fun s => bool_decide (s ∈ month_strings)) l = true
  <-> Forall (fun s => s ∈ month_strings) l.
Proof.
  induction l as [|s l IH]; simpl.
  - split; [constructor | done].
  - rewrite andb_true_iff, bool_decide_eq_true, IH, Forall_cons. done.
Qed.

Lemma astype_int_months (l : list string) :
  Forall (fun s => s ∈ month_strings) l ->
  exists zs, astype_int (map CStr l) = Returned zs
    /\ Forall (fun z => (1 <= z <= 12)%Z) zs
    /\ map str_of_int zs = l.
Proof.
  induction 1 as [|s l Hs _ (zs & Hzs & Hr & Hm)].
  - by exists [].
  - destruct (int_of_month_string s Hs) as (z & Hz & Hrange & Hstr).
    exists (z :: zs). split_and!.
    + cbn [map astype_int int_of_cell]. rewrite Hz, Hzs. reflexivity.
    + by constructor.
    + cbn [map]. by rewrite Hstr, Hm.
Qed.

(** C7: the month conversion returns exactly when every trimmed month
    value is one of the strings "1" to "12", and then yields the
    integers 1 to 12 those strings spell; on any other column it
    raises the script's error (a [ValueError], the error class that
    stands for the schema error) and the run saves no table. *)
Theorem convert_month_spec (col : list cell) :
  (Forall (fun s => s ∈ ["1"; "2"; "3"; "4"; "5"; "6";
                         "7"; "8"; "9"; "10"; "11"; "12"]) (trimmed col) ->
     exists zs, convert_month col = Returned zs
       /\ Forall (fun z => (1 <= z <= 12)%Z) zs
       /\ map str_of_int zs = trimmed col)
  /\ (~ Forall (fun s => s ∈ ["1"; "2"; "3"; "4"; "5"; "6";
                              "7"; "8"; "9"; "10"; "11"; "12"]) (trimmed col) ->
        convert_month col = Raised month_error
        /\ forall year_col, exists e, run year_col col = Raised e).
Proof.
  rewrite <- month_strings_eq. split.
  - intros Hall. unfold convert_month.
    rewrite (proj2 (forallb_month _) Hall). by apply astype_int_months.
  - intros Hnot.
    assert (convert_month col = Raised month_error) as E.
    { unfold convert_month.
      destruct (forallb _ (trimmed col)) eqn:Hb; [|done].
      by apply forallb_month in Hb. }
    split; [done|]. intros year_col. unfold run. rewrite E.
    destruct (convert_year year_col) as [ys|e]; by eexists.
Qed.

(** Zero-padded, out-of-range and non-numeric months are refused;
    surrounding blanks are not an obstacle. *)
Example convert_month_examples :
  convert_month [CStr "01"] = Raised month_error
  /\ convert_month [CInt 0] = Raised month_error
  /\ convert_month [CInt 13] = Raised month_error
  /\ convert_month [CStr "March"] = Raised month_error
  /\ convert_month [CInt 3; CNaN] = Raised month_error
  /\ convert_month [CInt 3; CStr " 12 "; CStr "7"] = Returned [3; 12; 7]%Z.
Proof. by vm_compute. Qed.

Lemma convert_month_spec_witness :
  (Forall (fun s => s ∈ ["1"; "2"; "3"; "4"; "5"; "6";
                         "7"; "8"; "9"; "10"; "11"; "12"])
          (trimmed [CInt 3; CStr " 12 "])
   /\ exists zs, convert_month [CInt 3; CStr " 12 "] = Returned zs
        /\ Forall (fun z => (1 <= z <= 12)%Z) zs
        /\ map str_of_int zs = trimmed [CInt 3; CStr " 12 "])
  /\ (~ Forall (fun s => s ∈ ["1"; "2"; "3"; "4"; "5"; "6";
                              "7"; "8"; "9"; "10"; "11"; "12"])
               (trimmed [CStr "01"])
      /\ convert_month [CStr "01"] = Raised month_error).
Proof.
  assert (Forall (fun s => s ∈ ["1"; "2"; "3"; "4"; "5"; "6";
                                "7"; "8"; "9"; "10"; "11"; "12"])
                 (trimmed [CInt 3; CStr " 12 "])) as H1.
  { apply (bool_decide_unpack _). by vm_compute. }
  assert (~ Forall (fun s => s ∈ ["1"; "2"; "3"; "4"; "5"; "6";
                                  "7"; "8"; "9"; "10"; "11"; "12"])
                   (trimmed [CStr "01"])) as H2.
  { apply (bool_decide_unpack _). by vm_compute. }
  split.
  - split; [exact H1|]. apply (proj1 (convert_month_spec _) H1).
  - split; [exact H2|]. apply (proj2 (convert_month_spec _) H2).
Defined.

End cleanup_facts.


(** ** Seasonal chart of the item view ([model.py]) *)

Section seasonal_facts.
Import model.

(** The keys of a grouping: every value of the column, once, in
    ascending order. *)
Lemma sorted_unique_spec (l : list Z) :
  Sorted Z.le (sorted_unique l)
  /\ NoDup (sorted_unique l)
  /\ (forall z, z ∈ sorted_unique l <-> z ∈ l).
Proof.
  unfold sorted_unique, errorAnalysis.drop_duplicates. split_and!.
  - apply Sorted_merge_sort, _.
  - rewrite merge_sort_Permutation. apply drop_duplicates_from_NoDup.
  - intros z. rewrite merge_sort_Permutation, drop_duplicates_from_elem.
    split; [tauto|]. intros Hz. split; [done | apply not_elem_of_nil].
Qed.

(** C4 (counterexample): a selection of exactly twelve rows is not
    "fewer than 12", yet the view returns the placeholder and not the
    seasonal chart. *)
Lemma seasonal_twelve_rows :
  length (select_rows twelve_months (Some "Rice") (2018, 2023)%Z) = 12
  /\ item_view_seasonal twelve_months (Some "Rice") (2018, 2023)%Z
     = px_line "Insufficient data for seasonal analysis of Rice"
  /\ ~ (forall item_df item years,
          12 <= length (select_rows item_df item years) ->
          traces (item_view_seasonal item_df item years) <> []).
Proof.
  split; [reflexivity|]. split; [reflexivity|].
  intros H. apply (H twelve_months (Some "Rice") (2018, 2023)%Z); [|reflexivity].
  apply (bool_decide_unpack _). by vm_compute.
Qed.

(** C4 (amended): with chart kind "seasonal", a selection of at most
    twelve rows yields the "insufficient data" placeholder chart; a
    selection of more than twelve rows yields the seasonal chart, whose
    first trace is the average of the index by month across years (the
    months in ascending order), followed by the traces of the years
    with more than six rows. *)
Theorem seasonal_threshold (item_df : list item_row) (item : option string)
    (years : Z * Z) :
  (length (select_rows item_df item years) <= 12 ->
     item_view_seasonal item_df item years
     = px_line ("Insufficient data for seasonal analysis of " ++ fmt_item item))
  /\ (12 < length (select_rows item_df item years) ->
       title (item_view_seasonal item_df item years)
       = "Seasonal Pattern for " ++ fmt_item item ++ " ("
           ++ str_of_int years.1 ++ "-" ++ str_of_int years.2 ++ ")"
       /\ exists avg,
            traces (item_view_seasonal item_df item years)
            = avg :: year_traces (select_rows item_df item years)
            /\ name avg = "Monthly Average"
            /\ x avg = sorted_unique (map month (select_rows item_df item years))
            /\ y avg = map (fun m => Series.mean (map combined_index
                              (filter (fun r => month r = m)
                                 (select_rows item_df item years))))
                          (x avg)).
Proof.
  unfold item_view_seasonal, seasonal_chart.
  set (rows := select_rows item_df item years). split; intros Hn.
  - rewrite bool_decide_eq_false_2; [done | lia].
  - rewrite bool_decide_eq_true_2; [|lia]. split; [done|].
    eexists. split; [reflexivity|]. cbn [name x y]. split; [done|].
    unfold monthly_avg. rewrite <- !list_fmap_compose. split.
    + apply list_fmap_id.
    + reflexivity.
Qed.

Lemma seasonal_threshold_witness :
  (length (select_rows twelve_months (Some "Rice") (2018, 2023)%Z) <= 12
   /\ item_view_seasonal twelve_months (Some "Rice") (2018, 2023)%Z
      = px_line ("Insufficient data for seasonal analysis of " ++ fmt_item (Some "Rice")))
  /\ (12 < length (select_rows (twelve_months ++ twelve_months) (Some "Rice") (2018, 2023)%Z)
      /\ title (item_view_seasonal (twelve_months ++ twelve_months) (Some "Rice") (2018, 2023)%Z)
         = "Seasonal Pattern for Rice (2018-2023)").
Proof.
  assert (length (select_rows twelve_months (Some "Rice") (2018, 2023)%Z) <= 12) as H1.
  { apply (bool_decide_unpack _). by vm_compute. }
  assert (12 < length (select_rows (twelve_months ++ twelve_months)
                         (Some "Rice") (2018, 2023)%Z)) as H2.
  { apply (bool_decide_unpack _). by vm_compute. }
  split.
  - split; [exact H1|]. apply (proj1 (seasonal_threshold _ _ _) H1).
  - split; [exact H2|]. apply (proj2 (seasonal_threshold _ _ _) H2).
Defined.

End seasonal_facts.

(** ** Forecast view ([model.py]) *)

Section forecast_facts.
Import model.

Lemma last_is_None {A} (l : list A) : last l = None <-> l = [].
Proof.
  split; [|by intros ->].
  induction l as [|a [|b l] IH]; [done|done|].
  intros H. by apply IH in H.
Qed.

Lemma last_tile (v : value) (n : nat) : last (tile v (S n)) = Some v.
Proof. induction n as [|n IH]; [done|]. exact IH. Qed.

Lemma summarize_tile (method_name : string) (Y : list value) (v : value)
    (n : nat) (q : option (Qc * value)) :
  exists ins, summarize method_name Y (tile v (S n)) q = Returned ins.
Proof. unfold summarize. rewrite last_tile. by eexists. Qed.

(** C1 (counterexample): on an empty selection the view raises nothing;
    it returns the "no data" chart and message. *)
Lemma forecast_empty_returns :
  forecast_view [] (Some "Rice") 12 "linear" = Returned no_data
  /\ forecast_view [] (Some "Rice") 12 "ma" = Returned no_data
  /\ forecast_view [] (Some "Rice") 12 "exp" = Returned no_data
  /\ ~ (exists e, forecast_view [] (Some "Rice") 12 "linear" = Raised e).
Proof. split_and!; try reflexivity. by intros [e He]. Qed.

(** The title of a forecast chart is not the title of the placeholder. *)
Lemma forecast_title_not_placeholder (item : option string) :
  forecast_title item <> "No data available for the selected parameters".
Proof. unfold forecast_title. destruct item; discriminate. Qed.

(** C1 (amended): for every method and every horizon, a forecast request
    on an empty historical series is answered, without any exception,
    by the "No data available" placeholder chart and message, which
    carries no forecast; and only an empty series is answered so. *)
Theorem forecast_empty_placeholder :
  (forall item h method,
     forecast_view [] item h method = Returned no_data
     /\ forecast_of (forecast_view [] item h method) = None)
  /\ (forall df item h method,
        forecast_view df item h method = Returned no_data -> df = []).
Proof.
  split; [done|]. intros df item h method.
  unfold forecast_view. destruct (last df) as [r|] eqn:Hl.
  - intros H. exfalso. revert H.
    repeat case_match; try done;
      destruct (summarize _ _ _ _) as [ins|e]; cbn; try done;
      intros [= Ht _]; by apply forecast_title_not_placeholder in Ht.
  - intros _. by apply last_is_None.
Qed.

Lemma forecast_empty_placeholder_witness :
  forecast_view [] (Some "Rice") 12 "ma" = Returned no_data
  /\ @nil item_row = [].
Proof.
  assert (forecast_view [] (Some "Rice") 12 "ma" = Returned no_data) as H
    by reflexivity.
  split; [exact H|].
  apply (proj2 forecast_empty_placeholder [] (Some "Rice") 12 "ma" H).
Defined.

(** *** Moving average *)

Lemma length_rolling_mean (w : nat) (Y : list value) :
  length (Series.rolling_mean w Y) = length Y.
Proof. unfold Series.rolling_mean. by rewrite length_fmap, length_seq. Qed.

(** The last cell of the rolling mean is the cell of the last position. *)
Lemma last_rolling_mean (w : nat) (Y : list value) :
  Y <> [] ->
  Series.iloc_last (Series.rolling_mean w Y)
  = Series.rolling_cell w Y (length Y - 1).
Proof.
  intros HY. unfold Series.iloc_last, Series.rolling_mean.
  rewrite fmap_last, last_lookup, length_seq.
  replace (Init.Nat.pred (length Y)) with (length Y - 1) by lia.
  destruct Y as [|c Y]; [done|]. cbn [length].
  rewrite lookup_seq_lt by lia. cbn. by rewrite Nat.sub_0_r.
Qed.

Lemma length_dropna (l : list value) : length (Series.dropna l) <= length l.
Proof.
  unfold Series.dropna. induction l as [|[v|] l IH]; cbn; lia.
Qed.

Lemma dropna_present (vs : list Qc) : Series.dropna (Some <$> vs) = vs.
Proof.
  unfold Series.dropna. induction vs as [|v vs IH]; [done|].
  cbn. by rewrite IH.
Qed.

(** A series shorter than the window has no rolling mean anywhere. *)
Lemma rolling_cell_short (w : nat) (Y : list value) (i : nat) :
  length Y < w -> Series.rolling_cell w Y i = None.
Proof.
  intros Hw. unfold Series.rolling_cell, Series.window.
  rewrite bool_decide_eq_false_2; [done|].
  pose proof (length_dropna (drop (S i - w) (take (S i) Y))) as H.
  rewrite length_drop, length_take in H. lia.
Qed.

(** Where the series ends in [w] values, the last rolling cell is their
    mean. *)
Lemma rolling_cell_last (w : nat) (pre : list value) (vs : list Qc) :
  0 < w -> length vs = w ->
  Series.rolling_cell w (pre ++ (Some <$> vs)) (length (pre ++ (Some <$> vs)) - 1)
  = Some (Series.total vs / Qc_of_Z (Z.of_nat w))%Qc.
Proof.
  intros Hw <-. unfold Series.rolling_cell, Series.window.
  rewrite length_app, length_fmap.
  replace (S (length pre + length vs - 1)) with (length pre + length vs) by lia.
  rewrite take_ge by (rewrite length_app, length_fmap; lia).
  replace (length pre + length vs - length vs) with (length pre) by lia.
  rewrite drop_app_length, dropna_present.
  rewrite bool_decide_eq_true_2 by lia.
  destruct vs as [|v vs]; [simpl in Hw; lia|]. done.
Qed.

(** The moving-average branch on a non-empty selection and a positive
    horizon: the chart it returns. *)
Lemma forecast_view_ma (df : list item_row) (item : option string) (h : nat) :
  df <> [] -> 0 < h ->
  exists r ins,
    last df = Some r
    /\ forecast_view df item h "ma"
       = Returned
           (mk_figure (forecast_title item)
              [mk_scatter "Historical Data" (map date_of df) (map combined_index df);
               mk_scatter "Moving Average" (map date_of df)
                 (Series.rolling_mean (h / 2) (map combined_index df));
               mk_scatter "Forecast" (date_range (date_of r) h)
                 (tile (Series.iloc_last
                          (Series.rolling_mean (h / 2) (map combined_index df))) h)],
            ins).
Proof.
  intros Hdf Hh. destruct (last df) as [r|] eqn:Hl;
    [|by apply last_is_None in Hl].
  destruct h as [|k]; [lia|].
  destruct (summarize_tile "Moving Average" (map combined_index df)
              (Series.iloc_last (Series.rolling_mean (S k / 2) (map combined_index df)))
              k None) as [ins Hins].
  exists r, ins. split; [done|].
  unfold forecast_view. rewrite Hl. cbn [String.eqb Ascii.eqb Bool.eqb].
  cbv zeta. rewrite Hins. reflexivity.
Qed.

(** The forecast trace is the third trace of a forecast chart. *)
Lemma forecast_of_third (t : string) (a b : scatter date) (xs : list date)
    (ys : list value) (ins : insights) :
  name a <> "Forecast" -> name b <> "Forecast" ->
  forecast_of (Returned (mk_figure t [a; b; mk_scatter "Forecast" xs ys], ins))
  = Some ys.
Proof.
  intros Ha Hb. unfold forecast_of. cbn [traces list_find].
  rewrite (decide_False (P := name a = "Forecast")) by done.
  rewrite (decide_False (P := name b = "Forecast")) by done.
  rewrite decide_True by done. reflexivity.
Qed.

Lemma forecast_of_ma (df : list item_row) (item : option string) (h : nat) :
  df <> [] -> 0 < h ->
  forecast_of (forecast_view df item h "ma")
  = Some (replicate h (Series.iloc_last
                         (Series.rolling_mean (h / 2) (map combined_index df)))).
Proof.
  intros Hdf Hh.
  destruct (forecast_view_ma df item h Hdf Hh) as (r & ins & _ & ->).
  by rewrite forecast_of_third.
Qed.

(** C5: on a non-empty series and a positive horizon [h] the
    moving-average method returns a chart whose moving-average trace is
    the trailing rolling mean with window [h / 2] (integer division, no
    minimum), and each of the [h] projected values is the last cell of
    that rolling mean: the mean of the last [h / 2] values of the series
    when it ends in that many values.  With window 3 on 10, 20, 30, 40,
    50, 60 every projected value is 50. *)
Theorem moving_average_forecast :
  (forall (df : list item_row) (item : option string) (h : nat),
     df <> [] -> 0 < h ->
     (exists fig ins,
        forecast_view df item h "ma" = Returned (fig, ins)
        /\ mk_scatter "Moving Average" (map date_of df)
             (Series.rolling_mean (h / 2) (map combined_index df)) ∈ traces fig)
     /\ forecast_of (forecast_view df item h "ma")
        = Some (replicate h (Series.iloc_last
                               (Series.rolling_mean (h / 2) (map combined_index df))))
     /\ (forall (pre : list value) (vs : list Qc),
          map combined_index df = (pre ++ (Some <$> vs))%list ->
          length vs = h / 2 -> 0 < h / 2 ->
          forecast_of (forecast_view df item h "ma")
          = Some (replicate h
                    (Some (Series.total vs / Qc_of_Z (Z.of_nat (h / 2)))%Qc))))
  /\ (forall (df : list item_row) (item : option string) (h : nat),
        map combined_index df = map Series.num [10; 20; 30; 40; 50; 60]%Z ->
        h / 2 = 3 ->
        forecast_of (forecast_view df item h "ma")
        = Some (replicate h (Series.num 50))).
Proof.
  assert (forall (df : list item_row) (item : option string) (h : nat)
                 (pre : list value) (vs : list Qc),
            df <> [] -> 0 < h ->
            map combined_index df = (pre ++ (Some <$> vs))%list ->
            length vs = h / 2 -> 0 < h / 2 ->
            forecast_of (forecast_view df item h "ma")
            = Some (replicate h
                      (Some (Series.total vs / Qc_of_Z (Z.of_nat (h / 2)))%Qc)))
    as Hmean.
  { intros df item h pre vs Hdf Hh HY Hlen Hw.
    rewrite forecast_of_ma by done. do 2 f_equal.
    rewrite last_rolling_mean by (by destruct df).
    rewrite HY. by apply rolling_cell_last. }
  split.
  - intros df item h Hdf Hh. split_and!.
    + destruct (forecast_view_ma df item h Hdf Hh) as (r & ins & _ & ->).
      do 2 eexists. split; [done|]. cbn [traces]. rewrite !elem_of_cons. auto.
    + by apply forecast_of_ma.
    + intros pre vs. by apply Hmean.
  - intros df item h HY Hw.
    assert (df <> []) as Hdf by (by intros ->).
    assert (0 < h) as Hh by (destruct h; [done | lia]).
    rewrite (Hmean df item h (map Series.num [10; 20; 30]%Z)
               [Qc_of_Z 40; Qc_of_Z 50; Qc_of_Z 60]); try done; [|lia].
    rewrite Hw. do 2 f_equal. unfold Series.num. f_equal.
    apply Qc_is_canon. reflexivity.
Qed.

Lemma moving_average_forecast_witness :
  rows_of [10; 20; 30; 40; 50; 60]%Z <> [] /\ 0 < 6
  /\ forecast_of (forecast_view (rows_of [10; 20; 30; 40; 50; 60]%Z) (Some "Rice") 6 "ma")
     = Some (replicate 6 (Series.num 50)).
Proof.
  split; [discriminate|]. split; [lia|].
  apply (proj2 moving_average_forecast); reflexivity.
Defined.

(** C10: when the non-empty series has fewer than [h / 2] values, the
    moving-average method raises nothing: it returns its chart, in which
    the rolling mean is NaN everywhere and each of the [h] projected
    values is NaN. *)
Theorem moving_average_short_series (df : list item_row) (item : option string)
    (h : nat) :
  df <> [] -> length df < h / 2 ->
  (exists fig ins, forecast_view df item h "ma" = Returned (fig, ins))
  /\ Series.rolling_mean (h / 2) (map combined_index df)
     = replicate (length df) None
  /\ forecast_of (forecast_view df item h "ma") = Some (replicate h None).
Proof.
  intros Hdf Hlen.
  assert (0 < h) as Hh.
  { destruct h as [|h]; [|lia]. cbn in Hlen. lia. }
  assert (Series.rolling_mean (h / 2) (map combined_index df)
          = replicate (length df) None) as Hroll.
  { unfold Series.rolling_mean. rewrite length_fmap.
    apply list_eq. intros i. rewrite list_lookup_fmap.
    destruct (decide (i < length df)) as [Hi|Hi].
    - rewrite lookup_seq_lt, lookup_replicate_2 by done. cbn.
      by rewrite rolling_cell_short by (by rewrite length_fmap).
    - rewrite lookup_seq_ge by lia. symmetry.
      apply lookup_replicate_None. lia. }
  split_and!.
  - destruct (forecast_view_ma df item h Hdf Hh) as (r & ins & _ & ->).
    by do 2 eexists.
  - done.
  - rewrite forecast_of_ma by done. do 2 f_equal.
    rewrite last_rolling_mean by (by destruct df).
    by apply rolling_cell_short; rewrite length_fmap.
Qed.

Lemma moving_average_short_series_witness :
  rows_of [100; 102]%Z <> [] /\ length (rows_of [100; 102]%Z) < 6 / 2
  /\ forecast_of (forecast_view (rows_of [100; 102]%Z) (Some "Rice") 6 "ma")
     = Some (replicate 6 None).
Proof.
  assert (rows_of [100; 102]%Z <> []) as H1 by discriminate.
  assert (length (rows_of [100; 102]%Z) < 6 / 2) as H2 by (cbn; lia).
  split; [exact H1|]. split; [exact H2|].
  apply (moving_average_short_series _ (Some "Rice") 6 H1 H2).
Defined.

End forecast_facts.

(** ** Linear trend ([model.py]) *)

Section linear_facts.
Import model.

Lemma sq_nonneg (a : Qc) : (0 <= sq a)%Qc.
Proof.
  unfold sq. destruct (Qclt_le_dec a 0) as [Ha|Ha].
  - replace (a * a)%Qc with ((- a) * (- a))%Qc by ring.
    assert (0 <= - a)%Qc as Hn.
    { apply Qclt_le_weak in Ha. apply Qcle_minus_iff in Ha.
      by replace (0 + - a)%Qc with (- a)%Qc in Ha by ring. }
    by apply Qcmult_nonneg_nonneg.
  - by apply Qcmult_nonneg_nonneg.
Qed.

Lemma sq_zero (a : Qc) : sq a = 0%Qc -> a = 0%Qc.
Proof. unfold sq. intros H. by destruct (Qcmult_integral _ _ H). Qed.

Lemma total_cons (a : Qc) (l : list Qc) :
  Series.total (a :: l) = (a + Series.total l)%Qc.
Proof. reflexivity. Qed.

Lemma total_sq_nonneg (l : list Qc) : (0 <= Series.total (map sq l))%Qc.
Proof.
  induction l as [|a l IH]; [done|]. rewrite map_cons, total_cons.
  apply Qcplus_nonneg_nonneg; [apply sq_nonneg | exact IH].
Qed.

(** A sum of squares vanishes only when every term does. *)
Lemma total_sq_zero (l : list Qc) :
  Series.total (map sq l) = 0%Qc -> Forall (fun a => a = 0%Qc) l.
Proof.
  induction l as [|a l IH]; [constructor|].
  rewrite map_cons, total_cons. intros H.
  destruct (Qcle_lt_or_eq _ _ (sq_nonneg a)) as [Hpos|Hz].
  - exfalso. pose proof (Qcplus_pos_nonneg _ _ Hpos (total_sq_nonneg l)) as Hs.
    rewrite H in Hs. by apply Qclt_not_eq in Hs.
  - constructor; [by apply sq_zero|].
    apply IH. rewrite <- Hz in H. rewrite <- H. ring.
Qed.



Lemma Qc_of_nat_S (n : nat) :
  Qc_of_Z (Z.of_nat (S n)) = (1 + Qc_of_Z (Z.of_nat n))%Qc.
Proof. by rewrite Nat2Z.inj_succ, <- Z.add_1_l, Z2Qc_inj_add, Z2Qc_inj_1. Qed.

Lemma Qc_of_nat_nonzero (n : nat) : n <> 0 -> Qc_of_Z (Z.of_nat n) <> 0%Qc.
Proof. rewrite <- Z2Qc_inj_0, Z2Qc_inj_iff. lia. Qed.

Lemma total_affine (a b : Qc) (X : list Qc) :
  Series.total (map (fun c => a + b * c)%Qc X)
  = (Qc_of_Z (Z.of_nat (length X)) * a + b * Series.total X)%Qc.
Proof.
  induction X as [|c X IH].
  - change (Series.total (map (fun c => a + b * c)%Qc [])) with 0%Qc.
    change (Series.total []) with 0%Qc.
    change (Z.of_nat (length (@nil Qc))) with 0%Z.
    rewrite Z2Qc_inj_0. ring.
  - rewrite map_cons, !total_cons, IH. cbn [length].
    rewrite Qc_of_nat_S. ring.
Qed.










End linear_facts.

Section linear_binary64_facts.
Import PrimFloat binary64.
#[local] Set Warnings "-inexact-float".


End linear_binary64_facts.

(** * Further properties of the scripts *)

(** ** Duplicate rows ([check.py], [errorAnalysis.py], [cleanup2.py]) *)

Section duplicate_facts.
Import errorAnalysis check_report.
Context {A : Type} `{EqDecision A}.

(** Only the membership in [seen] matters to what is kept. *)
Lemma drop_duplicates_from_ext (s1 s2 l : list A) :
  (forall x, x ∈ s1 <-> x ∈ s2) ->
  drop_duplicates_from s1 l = drop_duplicates_from s2 l.
Proof.
  revert s1 s2. induction l as [|y r IH]; intros s1 s2 Hs; [done|].
  cbn [drop_duplicates_from].
  destruct (decide (y ∈ s1)) as [H1|H1], (decide (y ∈ s2)) as [H2|H2].
  - by apply IH.
  - by apply Hs in H1.
  - by apply Hs in H2.
  - f_equal. apply IH. intros x. rewrite !elem_of_cons, Hs. done.
Qed.

(** De-duplicating a table that continues another: the rows kept from
    the first part stay, and the second part is read with the first
    part already seen. *)
Lemma drop_duplicates_from_app (seen l1 l2 : list A) :
  drop_duplicates_from seen (l1 ++ l2)
  = (drop_duplicates_from seen l1 ++ drop_duplicates_from (l1 ++ seen) l2)%list.
Proof.
  revert seen. induction l1 as [|y r IH]; intros seen; [done|].
  cbn [app drop_duplicates_from]. destruct (decide (y ∈ seen)) as [Hy|Hy].
  - rewrite IH. f_equal. apply drop_duplicates_from_ext.
    intros x. rewrite elem_of_cons, !elem_of_app. split; [tauto|].
    intros [->|[?|?]]; tauto.
  - rewrite IH. cbn [app]. do 2 f_equal. apply drop_duplicates_from_ext.
    intros x. rewrite !elem_of_cons, !elem_of_app, elem_of_cons. tauto.
Qed.

(** The de-duplicated table holds every row of the table exactly once,
    in the order of first occurrence: it is a sublist of the table
    with the same rows and no repeats, and at the first occurrence of
    a row, after the part [l1] of the table, that row is added right
    behind what is kept of [l1].  A table without repeated rows is
    returned unchanged. *)
Theorem drop_duplicates_spec (df : list A) :
  NoDup (drop_duplicates df)
  /\ sublist (drop_duplicates df) df
  /\ (forall r, r ∈ drop_duplicates df <-> r ∈ df)
  /\ (forall l1 r l2, df = (l1 ++ r :: l2)%list -> r ∉ l1 ->
        exists k, drop_duplicates df = (drop_duplicates l1 ++ r :: k)%list)
  /\ (NoDup df -> drop_duplicates df = df).
Proof.
  unfold drop_duplicates. split_and!.
  - apply drop_duplicates_from_NoDup.
  - apply drop_duplicates_from_sublist.
  - intros r. rewrite drop_duplicates_from_elem. split; [tauto|].
    intros Hr. split; [done | apply not_elem_of_nil].
  - intros l1 r l2 -> Hr. rewrite drop_duplicates_from_app.
    cbn [drop_duplicates_from]. rewrite app_nil_r.
    rewrite decide_False by done. by eexists.
  - intros Hnd. apply drop_duplicates_from_fixed; [done|].
    intros x _. apply not_elem_of_nil.
Qed.

Lemma duplicate_split_from (seen df : list A) :
  length (select df (duplicated_from seen df))
  + length (drop_duplicates_from seen df) = length df.
Proof.
  revert seen. induction df as [|x r IH]; intros seen; [done|].
  cbn [duplicated_from drop_duplicates_from].
  destruct (decide (x ∈ seen)); cbn [select length].
  - pose proof (IH seen). lia.
  - pose proof (IH (x :: seen)). lia.
Qed.

Lemma duplicate_rows_nil_from (seen df : list A) :
  select df (duplicated_from seen df) = []
  <-> NoDup df /\ (forall x, x ∈ df -> x ∉ seen).
Proof.
  revert seen. induction df as [|x r IH]; intros seen.
  - split; [|done]. intros _. split; [constructor|].
    by intros x ?%elem_of_nil.
  - cbn [duplicated_from]. destruct (decide (x ∈ seen)) as [Hx|Hx]; cbn [select].
    + split; [done|]. intros [_ Hs]. exfalso. apply (Hs x); [by left | done].
    + rewrite IH, NoDup_cons. split.
      * intros [Hnd Hs]. split_and!; [|done|].
        -- intros Hin. apply (Hs x Hin). by left.
        -- intros y [->|Hy]%elem_of_cons; [done|].
           specialize (Hs y Hy). rewrite not_elem_of_cons in Hs. tauto.
      * intros [[Hxr Hnd] Hs]. split; [done|].
        intros y Hy. rewrite not_elem_of_cons. split.
        -- by intros ->.
        -- apply Hs. by right.
Qed.

(** The audit's duplicate count is the number of rows de-duplication
    removes, and it is zero exactly on a table without repeated rows. *)
Theorem duplicate_count (df : list A) :
  length (duplicate_rows df) + length (drop_duplicates df) = length df
  /\ (duplicate_rows df = [] <-> NoDup df).
Proof.
  split; [apply duplicate_split_from|].
  unfold duplicate_rows, duplicated. rewrite duplicate_rows_nil_from.
  split; [tauto|]. intros Hnd. split; [done|].
  intros x _. apply not_elem_of_nil.
Qed.

End duplicate_facts.

Lemma drop_duplicates_spec_witness :
  (NoDup [3; 1; 2] /\ errorAnalysis.drop_duplicates [3; 1; 2] = [3; 1; 2])
  /\ ([3; 1; 3; 2] = ([3; 1; 3] ++ 2 :: [])%list /\ (2 ∉ [3; 1; 3])
      /\ exists k, errorAnalysis.drop_duplicates [3; 1; 3; 2]
                   = (errorAnalysis.drop_duplicates [3; 1; 3] ++ 2 :: k)%list).
Proof.
  assert (NoDup [3; 1; 2]) as H1 by (apply (bool_decide_unpack _); by vm_compute).
  assert ([3; 1; 3; 2] = ([3; 1; 3] ++ 2 :: [])%list) as H2 by reflexivity.
  assert (2 ∉ [3; 1; 3]) as H3 by (apply (bool_decide_unpack _); by vm_compute).
  split; [split; [exact H1|]|split; [exact H2|split; [exact H3|]]].
  - apply (proj2 (proj2 (proj2 (proj2 (drop_duplicates_spec [3; 1; 2])))) H1).
  - apply (proj1 (proj2 (proj2 (proj2 (drop_duplicates_spec [3; 1; 3; 2]))))
             _ _ _ H2 H3).
Defined.

(** ** Item codes ([check.py] line 27 with [replaceP.py]) *)

Section code_facts.
Import replaceP check_report.

Lemma dots_app (a b : string) : dots (a ++ b) = dots a + dots b.
Proof.
  induction a as [|c a IH]; [done|].
  rewrite app_cons_string. cbn [dots]. rewrite IH. lia.
Qed.

Lemma at_dollar_dots (s : string) : at_dollar s = true -> dots s = 0.
Proof.
  destruct s as [|c [|d s]]; cbn; try done.
  intros ->%Ascii.eqb_eq. reflexivity.
Qed.

(** A match of such a pattern spends one dot of the string on each
    literal and none elsewhere. *)
Lemma re_match_dots (s : string) (p : list atom) :
  Forall dot_free p -> re_match s p = true -> dots s = literals p.
Proof.
  revert p. induction s as [|d s IH]; intros p Hp.
  - destruct p as [|[cls|c] p]; cbn; try done.
  - destruct p as [|[cls|c] p].
    + cbn [re_match literals]. apply at_dollar_dots.
    + apply Forall_cons in Hp as [Hcls Hp']. cbn [re_match dots].
      intros [Hd [Hm|Hm]%orb_true_iff]%andb_true_iff.
      * assert (Ascii.eqb d "." = false) as ->.
        { apply Ascii.eqb_neq. intros ->. cbn in Hcls. congruence. }
        apply (IH (Plus cls :: p)) in Hm; [|by constructor]. rewrite Hm. done.
      * assert (Ascii.eqb d "." = false) as ->.
        { apply Ascii.eqb_neq. intros ->. cbn in Hcls. congruence. }
        apply (IH p) in Hm; [|done]. rewrite Hm. done.
    + apply Forall_cons in Hp as [Hc Hp']. cbn in Hc. subst c.
      cbn [re_match dots].
      intros [Hd Hm]%andb_true_iff. rewrite Hd.
      apply (IH p) in Hm; [|done]. rewrite Hm. done.
Qed.

Lemma valid_code_dots (s : string) :
  valid_code (Some s) = true -> dots s = 5.
Proof.
  intros H. apply (re_match_dots s item_code_pattern) in H; [done|].
  repeat constructor.
Qed.

(** A valid item code that received the [.P] tag is reported invalid by
    the audit, and the cleaner's substitution gives the valid code
    back. *)
Theorem suffixed_code_invalid_then_repaired (s : string) :
  valid_code (Some s) = true ->
  valid_code (Some (s ++ ".P")) = false
  /\ re_sub (s ++ ".P") = s
  /\ valid_code (Some (re_sub (s ++ ".P"))) = true.
Proof.
  intros Hv. split_and!.
  - destruct (valid_code (Some (s ++ ".P"))) eqn:E; [|done].
    apply valid_code_dots in E, Hv. rewrite dots_app, Hv in E. cbn in E. lia.
  - apply re_sub_strips.
  - by rewrite re_sub_strips.
Qed.

Lemma suffixed_code_invalid_then_repaired_witness :
  valid_code (Some "1.1.01.1.11.X") = true
  /\ valid_code (Some ("1.1.01.1.11.X" ++ ".P")) = false.
Proof.
  assert (valid_code (Some "1.1.01.1.11.X") = true) as H by reflexivity.
  split; [exact H|].
  apply (proj1 (suffixed_code_invalid_then_repaired _ H)).
Defined.

(** On a valid code the substitution is not harmless: it leaves the
    code as it is, or (when the last segment is [P]) turns it into a
    code the audit rejects. *)
Theorem re_sub_on_valid_code (s : string) :
  valid_code (Some s) = true ->
  re_sub s = s \/ valid_code (Some (re_sub s)) = false.
Proof.
  intros Hv. pose proof (valid_code_dots s Hv) as Hd.
  destruct (ends_with ".P" s) eqn:E1.
  - right. apply ends_with_split in E1 as [p ->]. rewrite re_sub_strips.
    destruct (valid_code (Some p)) eqn:E; [|done].
    apply valid_code_dots in E. rewrite dots_app, E in Hd. cbn in Hd. lia.
  - destruct (ends_with (".P" ++ String "010" "") s) eqn:E2.
    + right. apply ends_with_split in E2 as [p ->].
      rewrite re_sub_strips_newline.
      destruct (valid_code (Some (p ++ String "010" ""))) eqn:E; [|done].
      apply valid_code_dots in E. rewrite dots_app in E.
      rewrite !dots_app in Hd. cbn in E, Hd. lia.
    + left. by apply re_sub_no_match.
Qed.

Lemma re_sub_on_valid_code_witness :
  valid_code (Some "1.1.01.1.11.P") = true
  /\ (re_sub "1.1.01.1.11.P" = "1.1.01.1.11.P"
      \/ valid_code (Some (re_sub "1.1.01.1.11.P")) = false).
Proof.
  assert (valid_code (Some "1.1.01.1.11.P") = true) as H by reflexivity.
  split; [exact H|]. apply (re_sub_on_valid_code _ H).
Defined.

End code_facts.

(** ** Re-running the normaliser ([cleanup.py]) *)

Section cleanup_again.
Import cleanup.

Lemma month_cell_accepted (z : Z) :
  (1 <= z <= 12)%Z ->
  strip (astype_str (CInt z)) ∈ month_strings
  /\ int_of_str (strip (astype_str (CInt z))) = Some z.
Proof.
  intros Hz.
  assert (z ∈ [1; 2; 3; 4; 5; 6; 7; 8; 9; 10; 11; 12]%Z) as Hin.
  { rewrite !elem_of_cons. lia. }
  repeat (apply elem_of_cons in Hin as [->|Hin];
          [split; [apply (bool_decide_unpack _); by vm_compute | by vm_compute]|]).
  by apply elem_of_nil in Hin.
Qed.

Lemma convert_month_of_months (zs : list Z) :
  Forall (fun z => (1 <= z <= 12)%Z) zs ->
  convert_month (map CInt zs) = Returned zs.
Proof.
  intros Hzs. unfold convert_month.
  assert (Forall (fun s => s ∈ month_strings) (trimmed (map CInt zs))) as Hall.
  { unfold trimmed. rewrite Forall_fmap, Forall_fmap.
    eapply Forall_impl; [exact Hzs|]. intros z Hz. cbn.
    apply (month_cell_accepted z Hz). }
  rewrite (proj2 (forallb_month _) Hall).
  clear Hall. induction Hzs as [|z zs Hz _ IH]; [done|].
  cbn [map trimmed astype_int int_of_cell].
  rewrite (proj2 (month_cell_accepted z Hz)).
  unfold trimmed in IH. rewrite IH. reflexivity.
Qed.

Lemma convert_year_of_years (ys : list Z) :
  convert_year (map CInt ys) = Returned ys.
Proof.
  unfold convert_year.
  assert (astype_int (map CInt ys) = Returned ys) as ->; [|done].
  induction ys as [|y ys IH]; [done|].
  cbn [map astype_int int_of_cell]. rewrite IH. reflexivity.
Qed.

(** The script is idempotent on what it saves: the year and month
    columns of a saved table pass a second run unchanged. *)
Theorem cleanup_run_idempotent (year_col month_col : list cell) (ys ms : list Z) :
  run year_col month_col = Returned (ys, ms) ->
  run (map CInt ys) (map CInt ms) = Returned (ys, ms).
Proof.
  unfold run. destruct (convert_year year_col) as [ys'|e]; [|done].
  cbn [mbind outcome_bind].
  destruct (convert_month month_col) as [ms'|e] eqn:Hm; [|done].
  cbn [mbind outcome_bind mret outcome_ret]. intros [= -> ->].
  assert (Forall (fun z => (1 <= z <= 12)%Z) ms) as Hrange.
  { unfold convert_month in Hm.
    destruct (forallb _ (trimmed month_col)) eqn:Hb; [|done].
    apply forallb_month, astype_int_months in Hb as (zs & Hzs & Hr & _).
    rewrite Hzs in Hm. by injection Hm as <-. }
  rewrite convert_year_of_years, (convert_month_of_months ms Hrange).
  reflexivity.
Qed.

Lemma cleanup_run_idempotent_witness :
  run [CStr "2020"; CInt 2021] [CStr " 3 "; CInt 12] = Returned ([2020; 2021], [3; 12])%Z
  /\ run (map CInt [2020; 2021]%Z) (map CInt [3; 12]%Z)
     = Returned ([2020; 2021], [3; 12])%Z.
Proof.
  assert (run [CStr "2020"; CInt 2021] [CStr " 3 "; CInt 12]
          = Returned ([2020; 2021], [3; 12])%Z) as H by reflexivity.
  split; [exact H|]. apply (cleanup_run_idempotent _ _ _ _ H).
Defined.

(** A year cell that is missing or not an integer literal ends the run
    with an exception, whatever the month column holds, so nothing is
    saved.  When the integer literals of the year column fit pandas'
    64-bit integers, the exception is the script's own [ValueError];
    a literal beyond that range ahead of the bad cell makes
    [astype(int)] overflow first, and [except ValueError] does not
    catch that. *)
Theorem cleanup_run_bad_year (year_col month_col : list cell) (c : cell) :
  c ∈ year_col -> (forall z, int_of_cell c <> Returned z) ->
  (exists e, run year_col month_col = Raised e)
  /\ (Forall (fun d => forall z, int_of_cell d = Returned z -> int64 z) year_col ->
      run year_col month_col = Raised year_error).
Proof.
  intros Hin Hbad.
  assert (run year_col month_col = Raised year_error) as E; [|split; eauto].
  unfold run, convert_year.
  assert (exists msg, astype_int year_col = Raised (ValueError msg)) as [msg ->];
    [|done].
  induction year_col as [|d r IH]; [by apply elem_of_nil in Hin|].
  cbn [astype_int]. destruct (int_of_cell d) as [z|e] eqn:Hd.
  - apply elem_of_cons in Hin as [->|Hin]; [by destruct (Hbad z)|].
    destruct (IH Hin) as [msg ->]. by exists msg.
  - destruct d as [z|s|]; cbn in Hd.
    + done.
    + destruct (int_of_str s); [done|]. injection Hd as <-. by eexists.
    + injection Hd as <-. by eexists.
Qed.

Lemma cleanup_run_bad_year_witness :
  CStr "20x0" ∈ [CInt 2019; CStr "20x0"]
  /\ Forall (fun d => forall z, int_of_cell d = Returned z -> int64 z)
            [CInt 2019; CStr "20x0"]
  /\ run [CInt 2019; CStr "20x0"] [CInt 1; CInt 2] = Raised year_error.
Proof.
  assert (CStr "20x0" ∈ [CInt 2019; CStr "20x0"]) as H1.
  { apply elem_of_cons. right. apply elem_of_cons. by left. }
  assert (forall z, int_of_cell (CStr "20x0") <> Returned z) as H2
    by (intros z; discriminate).
  assert (Forall (fun d => forall z, int_of_cell d = Returned z -> int64 z)
                 [CInt 2019; CStr "20x0"]) as H3.
  { apply Forall_cons. split; [intros z [= <-]; unfold int64; lia|].
    apply Forall_cons. split; [intros z [=] | constructor]. }
  split; [exact H1|]. split; [exact H3|].
  apply (proj2 (cleanup_run_bad_year _ [CInt 1; CInt 2] _ H1 H2) H3).
Defined.

End cleanup_again.

(** ** Column names ([cleanup.py] line 8) *)

Section column_facts.
Import columns.

Lemma standardize_char_idem (c : ascii) :
  standardize_char (standardize_char c) = standardize_char c.
Proof. destruct c as [[] [] [] [] [] [] [] []]; reflexivity. Qed.

Lemma standardize_char_clean (c : ascii) :
  Ascii.eqb (standardize_char c) " " = false
  /\ Ascii.eqb (standardize_char c) "-" = false
  /\ is_upper (standardize_char c) = false.
Proof. destruct c as [[] [] [] [] [] [] [] []]; by vm_compute. Qed.

(** Standardising a column name leaves no blank, no hyphen and no
    upper-case letter in it and changes nothing when applied again; a
    name of ASCII characters keeps its length. *)
Theorem standardize_spec (name : string) :
  free_of (fun c => Ascii.eqb c " " || Ascii.eqb c "-" || is_upper c)
          (standardize name) = true
  /\ standardize (standardize name) = standardize name
  /\ (ascii_only name = true ->
      String.length (standardize name) = String.length name).
Proof.
  unfold standardize. induction name as [|c name (IH1 & IH2 & IH3)]; [done|].
  cbn [string_map String.length free_of]. split_and!.
  - rewrite IH1. destruct (standardize_char_clean c) as (-> & -> & ->). done.
  - by rewrite standardize_char_idem, IH2.
  - unfold ascii_only. cbn [list_ascii_of_string forallb].
    intros [_ Hn]%andb_prop. by rewrite (IH3 Hn).
Qed.

End column_facts.

Lemma standardize_spec_witness :
  columns.ascii_only "Item Code-1" = true
  /\ columns.standardize "Item Code-1" = "item_code_1"
  /\ String.length (columns.standardize "Item Code-1") = String.length "Item Code-1".
Proof.
  assert (columns.ascii_only "Item Code-1" = true) as H by reflexivity.
  split; [exact H|]. split; [reflexivity|].
  apply (proj2 (proj2 (standardize_spec "Item Code-1")) H).
Defined.

(** ** The state table ([cleanup2.py]) *)

Section cleanup2_facts.
Import cleanup cleanup2.

Lemma month_mapping_lookup (s : string) (z : Z) :
  month_mapping !! s = Some z <-> (s, z) ∈ month_names.
Proof.
  unfold month_mapping. split.
  - apply elem_of_list_to_map_2.
  - apply elem_of_list_to_map_1. apply (bool_decide_unpack _). by vm_compute.
Qed.

Lemma month_names_range (s : string) (z : Z) :
  (s, z) ∈ month_names -> (1 <= z <= 12)%Z.
Proof.
  intros H. unfold month_names in H.
  repeat (apply elem_of_cons in H as [[= -> ->]|H]; [lia|]).
  by apply elem_of_nil in H.
Qed.

(** A column of full month names converts to the calendar numbers of
    the names, all between 1 and 12, and the converted column is one
    that the item script's stricter month check accepts unchanged. *)
Theorem convert_month_names (col : list cell) (names : list string) :
  col = map CStr names ->
  Forall (fun s => exists z, (s, z) ∈ month_names) names ->
  exists zs,
    cleanup2.convert_month col = Returned zs
    /\ Forall2 (fun s z => (s, z) ∈ month_names) names zs
    /\ Forall (fun z => (1 <= z <= 12)%Z) zs
    /\ cleanup.convert_month (map CInt zs) = Returned zs.
Proof.
  intros -> Hall.
  assert (exists zs, cleanup2.convert_month (map CStr names) = Returned zs
                     /\ Forall2 (fun s z => (s, z) ∈ month_names) names zs)
    as (zs & Hzs & H2).
  { unfold cleanup2.convert_month.
    induction Hall as [|s names [z Hz] _ (zs & IH & IH2)]; [by exists []|].
    exists (z :: zs). cbn [map replace_month].
    rewrite (proj2 (month_mapping_lookup s z) Hz).
    cbn [astype_int int_of_cell]. rewrite IH. split; [done|].
    by constructor. }
  assert (Forall (fun z => (1 <= z <= 12)%Z) zs) as Hrange.
  { clear Hzs. induction H2 as [|s z names zs Hz _ IH]; [constructor|].
    apply Forall_cons in Hall as [_ Hall].
    constructor; [by eapply month_names_range | by apply IH]. }
  exists zs. split_and!; try done. by apply convert_month_of_months.
Qed.

Lemma convert_month_names_witness :
  Forall (fun s => exists z, (s, z) ∈ month_names) ["March"; "December"]
  /\ exists zs, cleanup2.convert_month (map CStr ["March"; "December"]) = Returned zs
       /\ cleanup.convert_month (map CInt zs) = Returned zs.
Proof.
  assert (Forall (fun s => exists z, (s, z) ∈ month_names) ["March"; "December"]) as H.
  { repeat constructor.
    - exists 3%Z. apply (bool_decide_unpack _). by vm_compute.
    - exists 12%Z. apply (bool_decide_unpack _). by vm_compute. }
  split; [exact H|].
  destruct (convert_month_names _ ["March"; "December"] eq_refl H)
    as (zs & H1 & _ & _ & H4).
  by exists zs.
Defined.

Lemma astype_int_raises (col : list cell) (c : cell) :
  c ∈ col -> (forall z, int_of_cell c <> Returned z) ->
  exists e, astype_int col = Raised e.
Proof.
  intros Hin Hbad. induction col as [|d r IH]; [by apply elem_of_nil in Hin|].
  cbn [astype_int]. destruct (int_of_cell d) as [z|e] eqn:Hd; [|by exists e].
  apply elem_of_cons in Hin as [->|Hin]; [by destruct (Hbad z)|].
  destruct (IH Hin) as [e ->]. by exists e.
Qed.

(** The mapping is exact: a month that is missing, or a string that is
    neither a key of the mapping nor an integer literal (a name in
    another case, an abbreviation), ends the run with an exception and
    no table is saved. *)
Theorem cleanup2_run_bad_month (df : list state_raw) (r : state_raw) :
  r ∈ df ->
  month r = CNaN
  \/ (exists s, month r = CStr s /\ month_mapping !! s = None
                /\ int_of_str s = None) ->
  exists e, cleanup2.run df = Raised e.
Proof.
  intros Hin Hbad. unfold cleanup2.run, cleanup2.convert_month.
  destruct (astype_int_raises (map replace_month (map cleanup2.month df))
              (replace_month (cleanup2.month r))) as [e ->].
  - apply list_elem_of_fmap. exists (cleanup2.month r). split; [done|].
    apply list_elem_of_fmap. by exists r.
  - intros z. destruct Hbad as [->|(s & -> & Hk & Hi)]; unfold replace_month.
    + discriminate.
    + rewrite Hk. cbn [int_of_cell]. by rewrite Hi.
  - by exists e.
Qed.

Lemma cleanup2_run_bad_month_witness :
  mk_raw (Some "Kerala") (CInt 2020) (CStr "january") None None None
    ∈ [mk_raw (Some "Kerala") (CInt 2020) (CStr "january") None None None]
  /\ exists e,
       cleanup2.run [mk_raw (Some "Kerala") (CInt 2020) (CStr "january")
                       None None None] = Raised e.
Proof.
  assert (mk_raw (Some "Kerala") (CInt 2020) (CStr "january") None None None
            ∈ [mk_raw (Some "Kerala") (CInt 2020) (CStr "january") None None None])
    as H1 by (apply elem_of_cons; by left).
  split; [exact H1|]. apply (cleanup2_run_bad_month _ _ H1).
  right. exists "january". split; [reflexivity|]. split; by vm_compute.
Defined.

(** A converted column holds, cell by cell, the integer of the cell. *)
Lemma astype_int_cells (col : list cell) (zs : list Z) :
  astype_int col = Returned zs ->
  Forall2 (fun c z => int_of_cell c = Returned z) col zs.
Proof.
  revert zs. induction col as [|c col IH]; intros zs; cbn [astype_int].
  - intros [= <-]. constructor.
  - destruct (int_of_cell c) as [z|e] eqn:Hc; [|done].
    cbn [mbind outcome_bind]. destruct (astype_int col) as [zs'|e]; [|done].
    cbn [mbind outcome_bind mret outcome_ret]. intros [= <-].
    constructor; [done | by apply IH].
Qed.

(** What the script saves has no repeated row and no missing cell, and
    its months are integers.  Every saved row is a row of the input
    whose month cell has been replaced by the integer it converts to
    (the number of a month name, or the value of an integer literal),
    and no row is added. *)
Theorem cleanup2_run_saved_table (df out : list state_raw) :
  cleanup2.run df = Returned out ->
  NoDup out
  /\ Forall complete out
  /\ Forall (fun r => exists z, cleanup2.month r = CInt z) out
  /\ Forall (fun r => exists r0 z,
                r0 ∈ df
                /\ int_of_cell (replace_month (cleanup2.month r0)) = Returned z
                /\ r = set_month r0 z) out
  /\ length out <= length df.
Proof.
  unfold cleanup2.run.
  destruct (cleanup2.convert_month (map cleanup2.month df)) as [months|e] eqn:Hm;
    [|done].
  cbn [mbind outcome_bind mret outcome_ret]. intros [= <-].
  apply astype_int_cells in Hm.
  set (conv := zip_with set_month df months).
  pose proof (drop_duplicates_from_NoDup [] (filter complete conv)) as Hnd.
  pose proof (drop_duplicates_from_sublist [] (filter complete conv)) as Hsl.
  pose proof (fun r => proj1 (drop_duplicates_from_elem [] (filter complete conv) r))
    as Hel.
  fold (errorAnalysis.drop_duplicates (filter complete conv)) in Hnd, Hsl, Hel.
  assert (forall r, r ∈ errorAnalysis.drop_duplicates (filter complete conv)
                    -> complete r /\ r ∈ conv) as Hsub.
  { intros r Hr. apply Hel in Hr as [Hr _]. by apply list_elem_of_filter in Hr. }
  assert (forall r, r ∈ conv ->
            exists r0 z,
              r0 ∈ df
              /\ int_of_cell (replace_month (cleanup2.month r0)) = Returned z
              /\ r = set_month r0 z) as Hconv.
  { intros r Hr. unfold conv in Hr.
    apply elem_of_lookup_zip_with in Hr as (i & r0 & z & -> & H0 & Hz).
    exists r0, z. split_and!; [by eapply list_elem_of_lookup_2 | | done].
    eapply (Forall2_lookup_lr _ _ _ i _ _ Hm); [|exact Hz].
    by rewrite !list_lookup_fmap, H0. }
  split_and!.
  - exact Hnd.
  - apply Forall_forall. intros r Hr. by apply Hsub.
  - apply Forall_forall. intros r Hr.
    destruct (Hconv r (proj2 (Hsub r Hr))) as (r0 & z & _ & _ & ->). by exists z.
  - apply Forall_forall. intros r Hr. apply Hconv. by apply Hsub.
  - transitivity (length (filter complete conv)).
    + by apply sublist_length.
    + etransitivity; [apply length_filter|].
      unfold conv. rewrite length_zip_with. lia.
Qed.

Lemma cleanup2_run_saved_table_witness :
  cleanup2.run
    [mk_raw (Some "Kerala") (CInt 2020) (CStr "March") (Series.num 1) (Series.num 2) (Series.num 3);
     mk_raw (Some "Kerala") (CInt 2020) (CInt 3) (Series.num 1) (Series.num 2) (Series.num 3);
     mk_raw (Some "Goa") (CInt 2020) (CStr "May") None (Series.num 2) (Series.num 3)]
  = Returned
      [mk_raw (Some "Kerala") (CInt 2020) (CInt 3) (Series.num 1) (Series.num 2) (Series.num 3)]
  /\ NoDup
       [mk_raw (Some "Kerala") (CInt 2020) (CInt 3) (Series.num 1) (Series.num 2) (Series.num 3)].
Proof.
  assert (cleanup2.run
    [mk_raw (Some "Kerala") (CInt 2020) (CStr "March") (Series.num 1) (Series.num 2) (Series.num 3);
     mk_raw (Some "Kerala") (CInt 2020) (CInt 3) (Series.num 1) (Series.num 2) (Series.num 3);
     mk_raw (Some "Goa") (CInt 2020) (CStr "May") None (Series.num 2) (Series.num 3)]
  = Returned
      [mk_raw (Some "Kerala") (CInt 2020) (CInt 3) (Series.num 1) (Series.num 2) (Series.num 3)])
    as H by (by vm_compute).
  split; [exact H|]. apply (proj1 (cleanup2_run_saved_table _ _ H)).
Defined.

End cleanup2_facts.

(** ** Outliers on degenerate columns ([check.py]) *)

Section outlier_facts.
Import check.

Lemma filter_none {A} (P : A -> Prop) `{forall a, Decision (P a)} (l : list A) :
  (forall a, a ∈ l -> ~ P a) -> filter P l = [].
Proof.
  intros Hl. induction l as [|a l IH]; [done|].
  rewrite filter_cons_False by (apply Hl; by left).
  apply IH. intros b Hb. apply Hl. by right.
Qed.

Lemma nth_all_equal (v d : Qc) (s : list Qc) (i : nat) :
  Forall (fun a => a = v) s -> d = v -> nth i s d = v.
Proof.
  intros Hs ->. revert i. induction Hs as [|a s -> _ IH]; intros [|i]; cbn; auto.
Qed.

Lemma dropna_elem (col : list value) (a : Qc) :
  a ∈ Series.dropna col <-> Some a ∈ col.
Proof.
  unfold Series.dropna. rewrite list_elem_of_omap. split.
  - by intros ([b|] & Hb & [= ->]).
  - intros Ha. by exists (Some a).
Qed.

(** The quantile of a column whose values are all equal is that value. *)
Lemma quantile_constant (q v : Qc) (col : list value) :
  Some v ∈ col -> (forall a, Some a ∈ col -> a = v) ->
  Series.quantile q col = Some v.
Proof.
  intros Hin Hall. unfold Series.quantile.
  set (s := merge_sort Qcle (Series.dropna col)).
  assert (Forall (fun a => a = v) s) as Hs.
  { apply Forall_forall. intros a Ha. apply Hall, dropna_elem.
    unfold s in Ha. by rewrite merge_sort_Permutation in Ha. }
  destruct s as [|x0 s'] eqn:Es.
  - exfalso. apply dropna_elem in Hin.
    rewrite <- (merge_sort_Permutation Qcle) in Hin. fold s in Hin.
    rewrite Es in Hin. by apply elem_of_nil in Hin.
  - assert (x0 = v) as Hx by (by apply Forall_cons in Hs as [? _]).
    cbv zeta. rewrite !(nth_all_equal v) by done. f_equal. ring.
Qed.

(** The outlier report flags only present values, in table order, and
    flags nothing at all when the column has no value or when all its
    values are equal. *)
Theorem outliers_degenerate (col : list value) :
  sublist (outliers col) col
  /\ Forall is_Some (outliers col)
  /\ ((forall a b, Some a ∈ col -> Some b ∈ col -> a = b) -> outliers col = []).
Proof.
  split_and!.
  - apply sublist_filter.
  - apply Forall_forall. intros v [Hv _]%list_elem_of_filter.
    destruct v; [done|]. by rewrite is_outlier_missing in Hv.
  - intros Heq. apply filter_none. intros [a|] Ha; [|by rewrite is_outlier_missing].
    assert (forall q, Series.quantile q col = Some a) as Hq.
    { intros q. apply quantile_constant; [done|]. intros b Hb. by apply Heq. }
    unfold is_outlier, lower_bound, upper_bound, IQR, Q1, Q3. rewrite !Hq.
    cbn [Series.sub Series.add Series.mul Series.lift2 Series.lt Series.gt].
    replace (a - Q2Qc (3 # 2) * (a - a))%Qc with a by ring.
    replace (a + Q2Qc (3 # 2) * (a - a))%Qc with a by ring.
    rewrite bool_decide_eq_false_2; [done|].
    intros Hlt. by apply Qclt_not_eq in Hlt.
Qed.

Lemma outliers_degenerate_witness :
  (forall a b, Some a ∈ [Series.num 7; None; Series.num 7] ->
               Some b ∈ [Series.num 7; None; Series.num 7] -> a = b)
  /\ outliers [Series.num 7; None; Series.num 7] = [].
Proof.
  assert (forall a b, Some a ∈ [Series.num 7; None; Series.num 7] ->
                      Some b ∈ [Series.num 7; None; Series.num 7] -> a = b) as H.
  { intros a b Ha Hb.
    assert (forall c, Some c ∈ [Series.num 7; None; Series.num 7] -> c = Qc_of_Z 7) as Hc.
    { intros c Hc. rewrite !elem_of_cons in Hc.
      destruct Hc as [[= ->]|[?|[[= ->]|?%elem_of_nil]]]; done. }
    by rewrite (Hc a Ha), (Hc b Hb). }
  split; [exact H|].
  apply (proj2 (proj2 (outliers_degenerate [Series.num 7; None; Series.num 7])) H).
Defined.

End outlier_facts.

(** ** Least squares ([model.py] lines 806-810) *)

Section least_squares_facts.
Import model regression.

Lemma total_map_plus {A} (f g : A -> Qc) (l : list A) :
  Series.total (map (fun a => f a + g a)%Qc l)
  = (Series.total (map f l) + Series.total (map g l))%Qc.
Proof.
  induction l as [|a l IH]; [cbn; ring|].
  rewrite !map_cons, !total_cons, IH. ring.
Qed.

Lemma total_map_scale {A} (k : Qc) (f : A -> Qc) (l : list A) :
  Series.total (map (fun a => k * f a)%Qc l) = (k * Series.total (map f l))%Qc.
Proof.
  induction l as [|a l IH]; [cbn; ring|].
  rewrite !map_cons, !total_cons, IH. ring.
Qed.

Lemma total_map_const {A} (k : Qc) (l : list A) :
  Series.total (map (fun _ => k) l) = (Qc_of_Z (Z.of_nat (length l)) * k)%Qc.
Proof.
  induction l as [|a l IH].
  - change (Z.of_nat (length (@nil A))) with 0%Z. rewrite Z2Qc_inj_0. cbn. ring.
  - rewrite map_cons, total_cons, IH. cbn [length]. rewrite Qc_of_nat_S. ring.
Qed.

Lemma total_map_ext {A} (f g : A -> Qc) (l : list A) :
  (forall a, f a = g a) -> Series.total (map f l) = Series.total (map g l).
Proof. intros Hfg. f_equal. apply list_fmap_ext. intros _ a _. apply Hfg. Qed.

Lemma total_map_sq_nonneg {A} (f : A -> Qc) (l : list A) :
  (0 <= Series.total (map (fun a => sq (f a)) l))%Qc.
Proof.
  rewrite (list_fmap_compose f sq). apply total_sq_nonneg.
Qed.

Lemma total_map_sq_zero {A} (f : A -> Qc) (l : list A) :
  Series.total (map (fun a => sq (f a)) l) = 0%Qc ->
  Forall (fun a => f a = 0%Qc) l.
Proof.
  rewrite (list_fmap_compose f sq). intros H%total_sq_zero.
  by rewrite Forall_fmap in H.
Qed.

Lemma total_average (l : list Qc) :
  l <> [] ->
  Series.total l = (Qc_of_Z (Z.of_nat (length l)) * average l)%Qc.
Proof.
  intros Hl. unfold average. field. apply Qc_of_nat_nonzero. by destruct l.
Qed.

Section samples.
Variables X Y : list Qc.
Hypothesis Hlen : length X = length Y.
Hypothesis HX : X <> [].

#[local] Abbreviation P := (zip X Y).
#[local] Abbreviation n := (Qc_of_Z (Z.of_nat (length X))).
#[local] Abbreviation xm := (average X).
#[local] Abbreviation ym := (average Y).
#[local] Abbreviation m := (fit X Y).
#[local] Abbreviation residual :=
  (fun p : Qc * Qc => p.2 - (coef m * p.1 + intercept m))%Qc.

Lemma total_fst : Series.total (map fst P) = (n * xm)%Qc.
Proof. rewrite fst_zip by lia. by apply total_average. Qed.

Lemma total_snd : Series.total (map snd P) = (n * ym)%Qc.
Proof.
  rewrite snd_zip by lia. rewrite Hlen.
  apply total_average. intros E. rewrite E in Hlen. by destruct X.
Qed.

Lemma sxx_pairs :
  Series.total (map (fun a => sq (a - xm)) X)
  = Series.total (map (fun p => sq (p.1 - xm)) P).
Proof.
  transitivity (Series.total (map (fun a => sq (a - xm)) (map fst P))).
  - by rewrite fst_zip by lia.
  - by rewrite <- list_fmap_compose.
Qed.

Lemma sxy_pairs :
  Series.total (zip_with (fun a b => (a - xm) * (b - ym))%Qc X Y)
  = Series.total (map (fun p => (p.1 - xm) * (p.2 - ym))%Qc P).
Proof. rewrite zip_with_zip. apply total_map_ext. by intros [a b]. Qed.

Lemma sxy_zero :
  Series.total (map (fun p => sq (p.1 - xm)) P) = 0%Qc ->
  Series.total (map (fun p => (p.1 - xm) * (p.2 - ym))%Qc P) = 0%Qc.
Proof.
  intros H%total_map_sq_zero.
  induction H as [|p l Hp _ IH]; [done|].
  rewrite map_cons, total_cons, IH. cbv beta in Hp. rewrite Hp. ring.
Qed.

(** The normal equation: the slope times the spread of the regressor
    is the co-variation of the two columns. *)
Lemma normal_equation :
  (coef m * Series.total (map (fun p => sq (p.1 - xm)) P))%Qc
  = Series.total (map (fun p => (p.1 - xm) * (p.2 - ym))%Qc P).
Proof.
  unfold fit. cbn [coef]. rewrite sxx_pairs, sxy_pairs.
  case_decide as Hs.
  - rewrite Hs, sxy_zero by done. ring.
  - field. done.
Qed.

Lemma residual_total : Series.total (map residual P) = 0%Qc.
Proof.
  rewrite (total_map_ext _
             (fun p => (p.2 + (- coef m) * p.1) + (- intercept m))%Qc)
    by (intros p; ring).
  rewrite total_map_plus, total_map_plus, total_map_scale, total_map_const.
  rewrite total_fst, total_snd. rewrite length_zip_with, <- Hlen, Nat.min_id.
  unfold fit. cbn [coef intercept]. ring.
Qed.

Lemma residual_orthogonal :
  Series.total (map (fun p => (p.1 - xm) * residual p)%Qc P) = 0%Qc.
Proof.
  rewrite (total_map_ext _
             (fun p => (p.1 - xm) * (p.2 - ym)
                       + (- coef m) * sq (p.1 - xm))%Qc).
  - rewrite total_map_plus, total_map_scale, <- normal_equation. ring.
  - intros p. unfold fit, sq. cbn [coef intercept]. ring.
Qed.

Lemma sse_pairs (l : linear_model) :
  sse l X Y
  = Series.total (map (fun p => sq (p.2 - (coef l * p.1 + intercept l))) P).
Proof.
  unfold sse. rewrite zip_with_zip. apply total_map_ext. by intros [a b].
Qed.

(** The fitted line minimises the sum of squared residuals: no other
    slope and intercept do better on the samples. *)
Theorem fit_least_squares (c' i' : Qc) :
  (sse (fit X Y) X Y <= sse (mk_model c' i') X Y)%Qc.
Proof.
  rewrite !sse_pairs. cbn [coef intercept].
  set (d := (coef m - c')%Qc).
  set (e := (intercept m - i' + d * xm)%Qc).
  set (f1 := fun p : Qc * Qc => sq (residual p)).
  set (f2 := fun p : Qc * Qc => ((p.1 - xm) * residual p)%Qc).
  set (f4 := fun p : Qc * Qc => sq (d * (p.1 - xm) + e)).
  rewrite (total_map_ext (fun p => sq (p.2 - (c' * p.1 + i')))
             (fun p => f1 p + ((d + d) * f2 p
                               + ((e + e) * residual p + f4 p)))%Qc).
  2:{ intros [a b]. unfold f1, f2, f4, sq, e, d. cbn [fst snd]. ring. }
  rewrite (total_map_plus f1), (total_map_plus (fun p => (d + d) * f2 p)%Qc),
    (total_map_plus (fun p => (e + e) * residual p)%Qc f4),
    (total_map_scale (d + d) f2), (total_map_scale (e + e) residual).
  unfold f2. rewrite residual_orthogonal, residual_total.
  pose proof (total_map_sq_nonneg (fun p : Qc * Qc => d * (p.1 - xm) + e)%Qc P) as Hnn.
  fold f4 in Hnn.
  apply (Qcplus_le_mono_l _ _ (Series.total (map f1 P))) in Hnn.
  replace (Series.total (map f1 P) + 0)%Qc with (Series.total (map f1 P)) in Hnn
    by ring.
  replace (Series.total (map f1 P)
           + ((d + d) * 0 + ((e + e) * 0 + Series.total (map f4 P))))%Qc
    with (Series.total (map f1 P) + Series.total (map f4 P))%Qc by ring.
  exact Hnn.
Qed.

(** In exact arithmetic, the fitted values have the mean of the
    samples: the residuals of the least-squares line sum to zero.  (The
    program computes the line in binary64, where this sum is zero only
    up to rounding.) *)
Theorem fit_preserves_mean :
  average (predict (fit X Y) X) = average Y
  /\ Series.total (zip_with (fun a b => b - (coef (fit X Y) * a + intercept (fit X Y)))%Qc
                     X Y) = 0%Qc.
Proof.
  split.
  - unfold predict.
    change (intercept (fit X Y)) with (average Y - coef (fit X Y) * average X)%Qc.
    unfold average at 1. rewrite length_map.
    rewrite (total_map_ext _
               (fun a => (average Y - coef m * xm) + coef m * a)%Qc)
      by (intros a; ring).
    rewrite total_affine, (total_average X HX).
    field. apply Qc_of_nat_nonzero. by destruct X.
  - rewrite zip_with_zip.
    rewrite (total_map_ext _ residual) by (by intros [a b]).
    apply residual_total.
Qed.

End samples.
End least_squares_facts.

Lemma fit_least_squares_witness :
  length [Qc_of_Z 0; Qc_of_Z 1; Qc_of_Z 2] = length [Qc_of_Z 1; Qc_of_Z 3; Qc_of_Z 2]
  /\ [Qc_of_Z 0; Qc_of_Z 1; Qc_of_Z 2] <> []
  /\ (regression.sse (model.fit [Qc_of_Z 0; Qc_of_Z 1; Qc_of_Z 2]
                                [Qc_of_Z 1; Qc_of_Z 3; Qc_of_Z 2])
        [Qc_of_Z 0; Qc_of_Z 1; Qc_of_Z 2] [Qc_of_Z 1; Qc_of_Z 3; Qc_of_Z 2]
      <= regression.sse (model.mk_model (Qc_of_Z 1) (Qc_of_Z 1))
           [Qc_of_Z 0; Qc_of_Z 1; Qc_of_Z 2] [Qc_of_Z 1; Qc_of_Z 3; Qc_of_Z 2])%Qc.
Proof.
  assert (length [Qc_of_Z 0; Qc_of_Z 1; Qc_of_Z 2]
          = length [Qc_of_Z 1; Qc_of_Z 3; Qc_of_Z 2]) as H1 by reflexivity.
  assert ([Qc_of_Z 0; Qc_of_Z 1; Qc_of_Z 2] <> []) as H2 by discriminate.
  split; [exact H1|]. split; [exact H2|].
  apply (fit_least_squares _ _ H1 H2).
Defined.

Lemma fit_preserves_mean_witness :
  length [Qc_of_Z 0; Qc_of_Z 1; Qc_of_Z 2] = length [Qc_of_Z 1; Qc_of_Z 3; Qc_of_Z 2]
  /\ [Qc_of_Z 0; Qc_of_Z 1; Qc_of_Z 2] <> []
  /\ model.average
       (model.predict (model.fit [Qc_of_Z 0; Qc_of_Z 1; Qc_of_Z 2]
                                 [Qc_of_Z 1; Qc_of_Z 3; Qc_of_Z 2])
          [Qc_of_Z 0; Qc_of_Z 1; Qc_of_Z 2])
     = model.average [Qc_of_Z 1; Qc_of_Z 3; Qc_of_Z 2].
Proof.
  assert (length [Qc_of_Z 0; Qc_of_Z 1; Qc_of_Z 2]
          = length [Qc_of_Z 1; Qc_of_Z 3; Qc_of_Z 2]) as H1 by reflexivity.
  assert ([Qc_of_Z 0; Qc_of_Z 1; Qc_of_Z 2] <> []) as H2 by discriminate.
  split; [exact H1|]. split; [exact H2|].
  apply (proj1 (fit_preserves_mean _ _ H1 H2)).
Defined.

(** ** The forecast view as a whole ([model.py] lines 795-1058) *)

Section forecast_view_facts.
Import model regression.

Lemma length_date_range (d : date) (n : nat) : length (date_range d n) = n.
Proof. revert d. induction n as [|n IH]; intros d; cbn; [done|]. by rewrite IH. Qed.

Lemma length_arange (a n : nat) : length (arange a n) = n.
Proof. unfold arange. by rewrite length_fmap, length_seq. Qed.

Lemma length_predict (m : linear_model) (X : list Qc) :
  length (predict m X) = length X.
Proof. unfold predict. by rewrite length_map. Qed.

Lemma length_ewm_from (a : Qc) (st : value * Qc) (l : list value) :
  length (Series.ewm_from a st l) = length l.
Proof.
  revert st. induction l as [|c l IH]; intros st; [done|].
  cbn [Series.ewm_from length]. by rewrite IH.
Qed.

Lemma summarize_nonempty (method_name : string) (Y fv : list value)
    (q : option (Qc * value)) :
  fv <> [] ->
  exists n, summarize method_name Y fv q = Returned (Numbers method_name n)
            /\ fit_quality n = q.
Proof.
  intros Hfv. unfold summarize. destruct (last fv) as [fe|] eqn:Hl.
  - by eexists.
  - by apply last_is_None in Hl.
Qed.

(** The linear branch on a series without missing value. *)
Lemma forecast_view_linear_shape (df : list item_row) (item : option string)
    (h : nat) (Yq : list Qc) (r : item_row) :
  last df = Some r -> 0 < h ->
  map combined_index df = Some <$> Yq ->
  exists n,
    forecast_view df item h "linear"
    = Returned
        (mk_figure (forecast_title item)
           [mk_scatter "Historical Data" (map date_of df) (map combined_index df);
            mk_scatter "Model Fit" (map date_of df)
              (Some <$> predict (fit (arange 0 (length df)) Yq)
                          (arange 0 (length df)));
            mk_scatter "Forecast" (date_range (date_of r) h)
              (Some <$> predict (fit (arange 0 (length df)) Yq)
                          (arange (length df) h))],
         Numbers "Linear Regression" n)
    /\ fit_quality n
       = Some (coef (fit (arange 0 (length df)) Yq),
               score (fit (arange 0 (length df)) Yq) (arange 0 (length df)) Yq).
Proof.
  intros Hl Hh HY. destruct h as [|k]; [lia|].
  destruct (summarize_nonempty "Linear Regression" (Some <$> Yq)
              (Some <$> predict (fit (arange 0 (length df)) Yq)
                          (arange (length df) (S k)))
              (Some (coef (fit (arange 0 (length df)) Yq),
                     score (fit (arange 0 (length df)) Yq)
                       (arange 0 (length df)) Yq)))
    as (n & Hn & Hq).
  { intros E%(f_equal length).
    rewrite length_fmap, length_predict, length_arange in E. discriminate E. }
  exists n. split; [|done].
  unfold forecast_view. rewrite Hl. cbn [String.eqb Ascii.eqb Bool.eqb].
  cbv zeta. rewrite HY, (mapM_fmap_Some id Some) by done.
  rewrite Hn. reflexivity.
Qed.

(** The exponential-smoothing branch. *)
Lemma forecast_view_exp (df : list item_row) (item : option string) (h : nat)
    (r : item_row) :
  last df = Some r -> 0 < h ->
  exists n,
    forecast_view df item h "exp"
    = Returned
        (mk_figure (forecast_title item)
           [mk_scatter "Historical Data" (map date_of df) (map combined_index df);
            mk_scatter "Exponential Smoothing" (map date_of df)
              (Series.ewm_mean (Q2Qc (2 # 10)) (map combined_index df));
            mk_scatter "Forecast" (date_range (date_of r) h)
              (tile (Series.iloc_last
                       (Series.ewm_mean (Q2Qc (2 # 10)) (map combined_index df))) h)],
         Numbers "Exponential Smoothing" n).
Proof.
  intros Hl Hh. destruct h as [|k]; [lia|].
  destruct (summarize_nonempty "Exponential Smoothing" (map combined_index df)
              (tile (Series.iloc_last
                       (Series.ewm_mean (Q2Qc (2 # 10)) (map combined_index df)))
                    (S k)) None) as (n & Hn & _); [done|].
  exists n. unfold forecast_view. rewrite Hl.
  cbn [String.eqb Ascii.eqb Bool.eqb]. cbv zeta. rewrite Hn. reflexivity.
Qed.




End forecast_view_facts.

Section forecast_shape_facts.
Import model regression.

(** Whenever the forecast view returns a chart for a non-empty
    selection, the horizon is positive and the chart begins with three
    traces: the history and the method's fitted series, each with one
    point per selected row, and the forecast with exactly [h] points;
    in every trace the dates and the values have the same length.  The
    moving-average and exponential-smoothing charts have no further
    trace.  (The linear chart goes on with the confidence band, which
    is not part of the embedded figure.) *)
Theorem forecast_figure_shape (df : list item_row) (item : option string)
    (h : nat) (method : string) (fig : figure date) (ins : insights) :
  df <> [] ->
  forecast_view df item h method = Returned (fig, ins) ->
  0 < h
  /\ title fig = forecast_title item
  /\ Forall (fun t => length (x t) = length (y t)) (traces fig)
  /\ exists t1 t2 t3 rest,
       traces fig = t1 :: t2 :: t3 :: rest
       /\ (method <> "linear" -> rest = [])
       /\ name t1 = "Historical Data" /\ y t1 = map combined_index df
       /\ length (y t2) = length df
       /\ name t3 = "Forecast" /\ length (y t3) = h.
Proof.
  intros Hdf. unfold forecast_view.
  destruct (last df) as [r|] eqn:Hl; [|by apply last_is_None in Hl].
  cbv zeta. destruct (String.eqb method "linear").
  { destruct (mapM id (map combined_index df)) as [Yq|] eqn:HY; [|done].
    destruct h as [|k]; [done|]. cbv beta iota.
    remember (S k) as h eqn:Eh.
    destruct (summarize _ _ _ _) as [n|e]; [|done].
    cbn [mbind outcome_bind mret outcome_ret]. intros [= <- <-].
    split; [lia|]. split; [done|]. cbn [traces]. split.
    - rewrite !Forall_cons. cbn [x y].
      rewrite ?length_fmap, ?length_predict, ?length_arange, ?length_date_range.
      split_and!; done || constructor.
    - do 4 eexists. split; [reflexivity|]. split; [done|]. cbn [name y].
      by rewrite !length_fmap, !length_predict, !length_arange. }
  destruct (String.eqb method "ma").
  { destruct h as [|k]; [done|].
    remember (S k) as h eqn:Eh.
    destruct (summarize _ _ _ _) as [n|e]; [|done].
    cbn [mbind outcome_bind mret outcome_ret]. intros [= <- <-].
    split; [lia|]. split; [done|]. cbn [traces]. split.
    - rewrite !Forall_cons. cbn [x y]. unfold tile.
      rewrite ?length_rolling_mean, ?length_fmap, ?length_replicate,
        ?length_date_range.
      split_and!; done || constructor.
    - do 4 eexists. split; [reflexivity|]. split; [done|]. cbn [name y].
      unfold tile.
      by rewrite length_rolling_mean, length_map, length_replicate. }
  destruct (String.eqb method "exp"); [|done].
  destruct h as [|k]; [done|].
  remember (S k) as h eqn:Eh.
  destruct (summarize _ _ _ _) as [n|e]; [|done].
  cbn [mbind outcome_bind mret outcome_ret]. intros [= <- <-].
  split; [lia|]. split; [done|]. cbn [traces]. split.
  - rewrite !Forall_cons. cbn [x y]. unfold tile, Series.ewm_mean.
    rewrite ?length_ewm_from, ?length_fmap, ?length_replicate,
      ?length_date_range.
    split_and!; done || constructor.
  - do 4 eexists. split; [reflexivity|]. split; [done|]. cbn [name y].
    unfold tile, Series.ewm_mean.
    by rewrite length_ewm_from, length_map, length_replicate.
Qed.

Lemma forecast_figure_shape_witness :
  rows_of [100; 103; 104]%Z <> []
  /\ exists fig ins,
       forecast_view (rows_of [100; 103; 104]%Z) (Some "Rice") 4 "exp"
       = Returned (fig, ins)
       /\ 0 < 4 /\ title fig = forecast_title (Some "Rice").
Proof.
  assert (rows_of [100; 103; 104]%Z <> []) as H1 by discriminate.
  split; [exact H1|].
  destruct (forecast_view_exp (rows_of [100; 103; 104]%Z) (Some "Rice") 4
              (mk_row (Some "1.1.01.1.11.X") (Some "Rice") 2020 3 (Series.num 104))
              eq_refl ltac:(lia)) as (n & E).
  do 2 eexists. split; [exact E|].
  destruct (forecast_figure_shape _ _ _ _ _ _ H1 E) as (Hh & Ht & _).
  by split.
Defined.

(** When the forecast view raises, for a non-empty selection: an
    unknown method selector leaves the chart unassigned
    ([UnboundLocalError]); the linear method refuses a series with a
    missing value ([ValueError]); a horizon of zero fails at the last
    projected value ([IndexError]) or, for the linear method, at the
    empty prediction ([ValueError]).  In every other case a chart is
    returned. *)
Theorem forecast_view_errors (df : list item_row) (item : option string)
    (h : nat) (method : string) :
  df <> [] ->
  (method <> "linear" -> method <> "ma" -> method <> "exp" ->
     forecast_view df item h method = Raised UnboundLocalError)
  /\ (method = "linear" -> None ∈ map combined_index df ->
        forecast_view df item h method = Raised (ValueError "Input y contains NaN."))
  /\ (method = "linear" -> None ∉ map combined_index df -> h = 0 ->
        forecast_view df item h method
        = Raised (ValueError "Found array with 0 sample(s)"))
  /\ (method = "ma" \/ method = "exp" -> h = 0 ->
        forecast_view df item h method = Raised IndexError)
  /\ (0 < h ->
      method = "ma" \/ method = "exp"
      \/ (method = "linear" /\ None ∉ map combined_index df) ->
      exists fig ins, forecast_view df item h method = Returned (fig, ins)).
Proof.
  intros Hdf. destruct (last df) as [r|] eqn:Hl; [|by apply last_is_None in Hl].
  assert (forall Y : list value, None ∉ Y -> exists Yq, Y = Some <$> Yq) as Hpresent.
  { induction Y as [|[v|] Y IH]; intros HY.
    - by exists [].
    - destruct IH as [Yq ->].
      + intros Hin. apply HY. by right.
      + by exists (v :: Yq).
    - exfalso. apply HY. by left. }
  assert (forall Y : list value, None ∈ Y -> mapM id Y = None) as Hmissing.
  { intros Y HY. apply eq_None_not_Some. intros [Yq HYq].
    apply mapM_Some in HYq.
    apply list_elem_of_lookup in HY as [i Hi].
    destruct (Forall2_lookup_l _ _ _ _ _ HYq Hi) as (? & _ & [=]). }
  split_and!.
  - intros H1 H2 H3. unfold forecast_view. rewrite Hl.
    apply String.eqb_neq in H1, H2, H3. by rewrite H1, H2, H3.
  - intros -> HY. unfold forecast_view. rewrite Hl.
    cbn [String.eqb Ascii.eqb Bool.eqb]. cbv zeta. by rewrite (Hmissing _ HY).
  - intros -> HY ->. unfold forecast_view. rewrite Hl.
    cbn [String.eqb Ascii.eqb Bool.eqb]. cbv zeta.
    destruct (Hpresent _ HY) as [Yq ->].
    by rewrite (mapM_fmap_Some id Some).
  - intros [-> | ->] ->; unfold forecast_view; rewrite Hl; reflexivity.
  - intros Hh [-> | [-> | [-> HY]]].
    + destruct (forecast_view_ma df item h Hdf Hh) as (r' & ins & _ & ->).
      by do 2 eexists.
    + destruct (forecast_view_exp df item h r Hl Hh) as (n & ->).
      by do 2 eexists.
    + destruct (Hpresent _ HY) as [Yq HYq].
      destruct (forecast_view_linear_shape df item h Yq r Hl Hh HYq) as (n & -> & _).
      by do 2 eexists.
Qed.

Lemma forecast_view_errors_witness :
  rows_of [100; 103]%Z <> []
  /\ forecast_view (rows_of [100; 103]%Z) (Some "Rice") 6 "arima"
     = Raised UnboundLocalError.
Proof.
  assert (rows_of [100; 103]%Z <> []) as H1 by discriminate.
  split; [exact H1|].
  apply (proj1 (forecast_view_errors _ (Some "Rice") 6 "arima" H1)); discriminate.
Defined.

End forecast_shape_facts.

(** ** Forecast dates and flat histories ([model.py]) *)

Section forecast_level_facts.
Import model regression.

Lemma next_month_valid (d : date) :
  (1 <= d.2 <= 12)%Z ->
  month_index (next_month d) = (month_index d + 1)%Z
  /\ (1 <= (next_month d).2 <= 12)%Z.
Proof.
  intros Hd. unfold next_month, month_index.
  case_bool_decide as E; cbn [fst snd]; lia.
Qed.

(** The dates of a forecast are the [n] months that follow the last
    historical month, one by one, December rolling over to January of
    the next year. *)
Theorem forecast_dates_consecutive (d : date) (n : nat) :
  (1 <= d.2 <= 12)%Z ->
  length (date_range d n) = n
  /\ forall k d', date_range d n !! k = Some d' ->
       month_index d' = (month_index d + Z.of_nat k + 1)%Z
       /\ (1 <= d'.2 <= 12)%Z.
Proof.
  intros Hd. split; [apply length_date_range|].
  revert d Hd. induction n as [|n IH]; intros d Hd k d' Hk; [done|].
  destruct (next_month_valid d Hd) as [Hi Hv].
  cbn [date_range] in Hk. destruct k as [|k].
  - injection Hk as <-. split; [lia | done].
  - cbn in Hk. destruct (IH _ Hv k d' Hk) as [Hi' Hv']. split; [lia | done].
Qed.

Lemma forecast_dates_consecutive_witness :
  (1 <= (2023, 11)%Z.2 <= 12)%Z
  /\ date_range (2023, 11)%Z 3 = [(2023, 12); (2024, 1); (2024, 2)]%Z
  /\ length (date_range (2023, 11)%Z 3) = 3.
Proof.
  assert (1 <= (2023, 11)%Z.2 <= 12)%Z as H by (cbn; lia).
  split; [exact H|]. split; [reflexivity|].
  apply (proj1 (forecast_dates_consecutive _ 3 H)).
Defined.

(** Exponential smoothing of a constant series is that series. *)
Lemma ewm_from_constant (a c w : Qc) (l : list value) :
  (0 <= 1 - a)%Qc -> (0 < w)%Qc ->
  Forall (fun v => v = Some c) l ->
  Series.ewm_from a (Some c, w) l = l.
Proof.
  intros Ha Hw Hl. revert w Hw. induction Hl as [|v l -> _ IH]; intros w Hw; [done|].
  cbn [Series.ewm_from Series.ewm_step fst].
  assert (0 < w * (1 - a) + 1)%Qc as Hpos.
  { apply Qcplus_nonneg_pos; [|done].
    apply Qcmult_nonneg_nonneg; [by apply Qclt_le_weak | done]. }
  assert (((w * (1 - a) * c + c) / (w * (1 - a) + 1))%Qc = c) as ->.
  { apply Qclt_not_eq in Hpos.
    replace (w * (1 - a) * c + c)%Qc with (c * (w * (1 - a) + 1))%Qc by ring.
    unfold Qcdiv. rewrite <- Qcmult_assoc, Qcmult_inv_r by done. ring. }
  f_equal. by apply IH.
Qed.

Lemma ewm_mean_constant (c : Qc) (l : list value) :
  Forall (fun v => v = Some c) l ->
  Series.ewm_mean (Q2Qc (2 # 10)) l = l.
Proof.
  intros Hl. unfold Series.ewm_mean. destruct Hl as [|v l -> Hl]; [done|].
  cbn [Series.ewm_from Series.ewm_step fst]. f_equal.
  by apply ewm_from_constant.
Qed.

Lemma total_replicate (n : nat) (c : Qc) :
  Series.total (replicate n c) = (Qc_of_Z (Z.of_nat n) * c)%Qc.
Proof.
  induction n as [|n IH].
  - change (Z.of_nat 0) with 0%Z. rewrite Z2Qc_inj_0. cbn. ring.
  - cbn [replicate]. rewrite total_cons, IH, Qc_of_nat_S. ring.
Qed.

Lemma last_replicate_S {A} (n : nat) (a : A) : last (replicate (S n) a) = Some a.
Proof. induction n as [|n IH]; [done|]. exact IH. Qed.

(** A flat history yields a flat forecast at the same level with
    exponential smoothing and, as soon as the window [h / 2] is
    positive and not longer than the history, with the moving
    average.  (The smoothing recurrence and the rolling mean of pandas
    return a repeated value as it is.  The linear method is left out:
    its line goes through the binary64 mean of the values, which need
    not be the repeated value itself.) *)
Theorem flat_history_flat_forecast (df : list item_row) (item : option string)
    (h : nat) (c : Qc) :
  df <> [] -> 0 < h ->
  Forall (fun r => combined_index r = Some c) df ->
  forecast_of (forecast_view df item h "exp") = Some (replicate h (Some c))
  /\ (0 < h / 2 <= length df ->
      forecast_of (forecast_view df item h "ma") = Some (replicate h (Some c))).
Proof.
  intros Hdf Hh Hc.
  destruct (last df) as [r|] eqn:Hl; [|by apply last_is_None in Hl].
  assert (map combined_index df = replicate (length df) (Some c)) as HY.
  { apply const_fmap. intros i r' Hi.
    by apply (Forall_lookup_1 _ _ _ _ Hc Hi). }
  assert (length df <> 0) as Hn by (by destruct df).
  split.
  - destruct (forecast_view_exp df item h r Hl Hh) as (n & ->).
    rewrite forecast_of_third by done. unfold tile. do 2 f_equal.
    rewrite (ewm_mean_constant c).
    + rewrite HY. unfold Series.iloc_last.
      destruct (length df); [done|]. by rewrite last_replicate_S.
    + rewrite HY. by apply Forall_replicate.
  - intros [Hw1 Hw2]. rewrite forecast_of_ma by done. do 2 f_equal.
    rewrite last_rolling_mean by (by destruct df).
    rewrite HY.
    replace (replicate (length df) (Some c))
      with ((replicate (length df - h / 2) (Some c)
             ++ (Some <$> replicate (h / 2) c))%list).
    + rewrite rolling_cell_last by (done || by rewrite length_replicate).
      f_equal. rewrite total_replicate. field.
      apply Qc_of_nat_nonzero. lia.
    + rewrite fmap_replicate, <- replicate_add. f_equal. lia.
Qed.

Lemma flat_history_flat_forecast_witness :
  rows_of [100; 100; 100]%Z <> [] /\ 0 < 4
  /\ Forall (fun r => combined_index r = Some (Qc_of_Z 100)) (rows_of [100; 100; 100]%Z)
  /\ forecast_of (forecast_view (rows_of [100; 100; 100]%Z) (Some "Rice") 4 "exp")
     = Some (replicate 4 (Some (Qc_of_Z 100))).
Proof.
  assert (rows_of [100; 100; 100]%Z <> []) as H1 by discriminate.
  assert (0 < 4) as H2 by lia.
  assert (Forall (fun r => combined_index r = Some (Qc_of_Z 100))
                 (rows_of [100; 100; 100]%Z)) as H3 by (by repeat constructor).
  split; [exact H1|]. split; [exact H2|]. split; [exact H3|].
  apply (proj1 (flat_history_flat_forecast _ (Some "Rice") _ _ H1 H2 H3)).
Defined.

End forecast_level_facts.

(** ** Insight numbers of the item view ([model.py] lines 523-532) *)

Section insight_facts.
Import item_insights.





End insight_facts.

(** ** The period of the landing map ([model.py] lines 1072-1078) *)

Section landing_facts.
Import landing.

Lemma foldr_max_spec (z : Z) (l : list Z) :
  foldr Z.max z l ∈ z :: l /\ Forall (fun a => (a <= foldr Z.max z l)%Z) (z :: l).
Proof.
  induction l as [|a l [IH1 IH2]].
  - cbn. split; [by left | repeat constructor; lia].
  - cbn [foldr]. apply Forall_cons in IH2 as [Hz Hl]. split.
    + destruct (Z.max_spec a (foldr Z.max z l)) as [[_ ->]|[_ ->]].
      * apply elem_of_cons in IH1 as [->|IH1]; [by left|]. right. by right.
      * right. by left.
    + repeat constructor; [lia|lia|].
      eapply Forall_impl; [exact Hl|]. cbn. lia.
Qed.

Lemma col_max_spec (l : list Z) :
  match col_max l with
  | None => l = []
  | Some z => z ∈ l /\ Forall (fun a => (a <= z)%Z) l
  end.
Proof. destruct l as [|z l]; [done|]. apply foldr_max_spec. Qed.

(** On a non-empty state table the landing map shows at least one row,
    all its rows belong to one and the same month, and no row of the
    table is later than that month. *)
Theorem map_df_latest (state_df : list state_row) :
  state_df <> [] ->
  map_df state_df <> []
  /\ forall r, r ∈ map_df state_df ->
       r ∈ state_df
       /\ (forall r', r' ∈ map_df state_df -> year r' = year r /\ month r' = month r)
       /\ (forall r', r' ∈ state_df ->
             (year r' < year r)%Z
             \/ (year r' = year r /\ (month r' <= month r)%Z)).
Proof.
  intros Hdf. unfold map_df.
  pose proof (col_max_spec (map year state_df)) as Hy.
  fold (latest_year state_df) in Hy.
  destruct (latest_year state_df) as [y|] eqn:Ey.
  2:{ destruct state_df; [done | discriminate Hy]. }
  destruct Hy as [Hyin Hymax].
  pose proof (col_max_spec
                (map month (filter (fun r => Some (year r) = Some y) state_df))) as Hm.
  assert (latest_month state_df
          = col_max (map month (filter (fun r => Some (year r) = Some y) state_df)))
    as Em by (unfold latest_month; by rewrite Ey).
  rewrite Em. clear Em.
  destruct (col_max _) as [m|] eqn:Emm.
  2:{ exfalso. apply list_elem_of_fmap in Hyin as (r0 & -> & Hr0).
      apply fmap_nil_inv in Hm.
      assert (r0 ∈ filter (fun r => Some (year r) = Some (year r0)) state_df) as Hin
        by (by apply list_elem_of_filter).
      rewrite Hm in Hin. by apply elem_of_nil in Hin. }
  destruct Hm as [Hmin Hmmax]. split.
  - apply list_elem_of_fmap in Hmin as (r1 & -> & Hr1).
    apply list_elem_of_filter in Hr1 as [Hy1 Hr1].
    intros E.
    assert (r1 ∈ filter (fun r => Some (year r) = Some y
                                  /\ Some (month r) = Some (month r1)) state_df) as Hin
      by (by apply list_elem_of_filter).
    rewrite E in Hin. by apply elem_of_nil in Hin.
  - intros r [[[= Hry] [= Hrm]] Hr]%list_elem_of_filter. split_and!; [done| |].
    + intros r' [[[= Hry'] [= Hrm']] _]%list_elem_of_filter. lia.
    + intros r' Hr'.
      assert (year r' <= y)%Z as Hle.
      { rewrite Forall_fmap in Hymax.
        by apply (proj1 (Forall_forall _ _) Hymax r'). }
      destruct (decide (year r' = y)) as [Hey|Hney]; [|left; lia].
      right. split; [lia|]. rewrite Forall_fmap in Hmmax.
      assert (month r' <= m)%Z; [|lia].
      apply (proj1 (Forall_forall _ _) Hmmax r').
      apply list_elem_of_filter. split; [by rewrite Hey | done].
Qed.

Lemma map_df_latest_witness :
  [mk_state (Some "Goa") 2023 12 None None None;
   mk_state (Some "Goa") 2024 1 None None None;
   mk_state (Some "Kerala") 2024 1 None None None] <> []
  /\ map_df [mk_state (Some "Goa") 2023 12 None None None;
             mk_state (Some "Goa") 2024 1 None None None;
             mk_state (Some "Kerala") 2024 1 None None None] <> [].
Proof.
  assert ([mk_state (Some "Goa") 2023 12 None None None;
           mk_state (Some "Goa") 2024 1 None None None;
           mk_state (Some "Kerala") 2024 1 None None None] <> []) as H by discriminate.
  split; [exact H|]. apply (proj1 (map_df_latest _ H)).
Defined.

End landing_facts.


(** ** The audit after the cleaning ([check.py] line 8 on the output of
    [errorAnalysis.py]) *)

Section audit_after_cleaning.
Import errorAnalysis check_report.

Lemma missing_values_zero (col : list value) :
  Forall is_Some col -> missing_values col = 0.
Proof.
  intros H. unfold missing_values. rewrite filter_none; [done|].
  intros v Hv ->. apply (proj1 (Forall_forall _ _) H) in Hv. by destruct Hv.
Qed.

Lemma ffill_from_all_missing (l : list value) :
  Forall (fun v => v = None) l -> Series.ffill_from None l = l.
Proof. induction 1 as [|v l -> _ IH]; [done|]. cbn. by rewrite IH. Qed.

(** After the imputation the audit counts no missing [combined_index]
    when the column had at least one value; a column without any value
    comes back unchanged, every cell still counted as missing. *)
Theorem missing_after_impute (col : list value) :
  ((exists i v, col !! i = Some (Some v)) -> missing_values (impute col) = 0)
  /\ (Forall (fun v => v = None) col ->
        impute col = col /\ missing_values (impute col) = length col).
Proof.
  split.
  - intros (i & v & Hi). apply missing_values_zero.
    destruct (mean_ffill_is_Some col i v Hi) as [m Hm].
    unfold impute. rewrite Hm. apply Forall_lookup_2. intros j c.
    rewrite lookup_fillna.
    destruct (Series.ffill col !! j) as [[?|]|]; intros; by simplify_eq.
  - intros Hall.
    assert (impute col = col) as E.
    { unfold impute, Series.ffill. rewrite (ffill_from_all_missing col Hall).
      assert (Series.mean col = None) as ->.
      { unfold Series.mean, Series.dropna.
        assert (omap id col = []) as ->; [|done].
        induction Hall as [|c l -> _ IH]; [done|]. exact IH. }
      unfold Series.fillna. induction Hall as [|c l -> _ IH]; [done|].
      cbn [map]. by rewrite IH. }
    split; [done|]. rewrite E. clear E. unfold missing_values.
    induction Hall as [|c l -> _ IH]; [done|].
    rewrite filter_cons_True by done. cbn [length]. by rewrite IH.
Qed.

Lemma missing_after_impute_witness :
  (exists i v, [None; Series.num 4; None] !! i = Some (Some v))
  /\ missing_values (impute [None; Series.num 4; None]) = 0.
Proof.
  assert (exists i v, [None; Series.num 4; None] !! i = Some (Some v)) as H.
  { exists 1, (Qc_of_Z 4). reflexivity. }
  split; [exact H|]. apply (proj1 (missing_after_impute _) H).
Defined.

End audit_after_cleaning.

(** ** Selections without rows ([model.py] lines 442-444, 789-797) *)

Section selection_facts.
Import model.

Lemma select_rows_spec (item_df : list item_row) (item : option string)
    (years : Z * Z) (r : item_row) :
  r ∈ select_rows item_df item years
  <-> r ∈ item_df /\ is_Some item /\ description r = item
      /\ (years.1 <= year r <= years.2)%Z.
Proof. unfold select_rows. rewrite list_elem_of_filter. tauto. Qed.

(** The selection keeps the table order and holds exactly the rows of
    the chosen item within the chosen years.  When no item is chosen,
    when the year range is inverted, or when the table has no row of
    the item in the range, the selection is empty, and then, in
    whatever order the rows are handed on, the forecast view answers
    with the "no data" placeholder and the seasonal chart with its
    "insufficient data" placeholder; neither raises. *)
Theorem empty_selection_placeholders (item_df : list item_row)
    (item : option string) (years : Z * Z) :
  sublist (select_rows item_df item years) item_df
  /\ ((item = None \/ (years.2 < years.1)%Z
       \/ (forall r, r ∈ item_df -> description r = item ->
                     ~ (years.1 <= year r <= years.2)%Z)) ->
      select_rows item_df item years = []
      /\ (forall filtered h method,
            filtered ≡ₚ select_rows item_df item years ->
            forecast_view filtered item h method = Returned no_data)
      /\ item_view_seasonal item_df item years
         = px_line ("Insufficient data for seasonal analysis of " ++ fmt_item item)).
Proof.
  split; [apply sublist_filter|]. intros Hcase.
  assert (select_rows item_df item years = []) as E.
  { apply filter_none. intros r Hr (Hi & Hd & Hy1 & Hy2).
    destruct Hcase as [-> | [Hinv | Hnone]].
    - by destruct Hi.
    - lia.
    - apply (Hnone r Hr Hd). lia. }
  split_and!; [done| |].
  - intros filtered h method Hp. rewrite E in Hp.
    apply Permutation_nil_r in Hp. by subst.
  - unfold item_view_seasonal, seasonal_chart. by rewrite E.
Qed.

Lemma empty_selection_placeholders_witness :
  (None = @None string \/ ((2018, 2023)%Z.2 < (2018, 2023)%Z.1)%Z
   \/ (forall r, r ∈ twelve_months -> description r = None ->
                 ~ ((2018, 2023)%Z.1 <= year r <= (2018, 2023)%Z.2)%Z))
  /\ select_rows twelve_months None (2018, 2023)%Z = [].
Proof.
  assert (None = @None string \/ ((2018, 2023)%Z.2 < (2018, 2023)%Z.1)%Z
          \/ (forall r, r ∈ twelve_months -> description r = None ->
                        ~ ((2018, 2023)%Z.1 <= year r <= (2018, 2023)%Z.2)%Z)) as H
    by (by left).
  split; [exact H|].
  apply (proj1 (proj2 (empty_selection_placeholders twelve_months None (2018, 2023)%Z) H)).
Defined.

Lemma length_omap_le {A B} (f : A -> option B) (l : list A) :
  length (omap f l) <= length l.
Proof.
  induction l as [|a l IH]; [done|]. cbn [omap list_omap].
  destruct (f a); cbn [length]; lia.
Qed.

(** The seasonal chart of a selection of more than twelve rows: the
    months of the average trace are those occurring in the selection,
    each once and in ascending order, with one value per month; every
    year trace has more than six points, one month per value; and there
    are at most as many year traces as selected rows. *)
Theorem seasonal_chart_traces (rows : list item_row) (item : option string)
    (years : Z * Z) :
  12 < length rows ->
  exists avg yts,
    traces (seasonal_chart rows item years) = avg :: yts
    /\ NoDup (x avg) /\ Sorted Z.le (x avg)
    /\ (forall m, m ∈ x avg <-> exists r, r ∈ rows /\ month r = m)
    /\ length (x avg) = length (y avg)
    /\ Forall (fun t => 6 < length (y t) /\ length (x t) = length (y t)) yts
    /\ length yts <= length rows.
Proof.
  intros Hn. unfold seasonal_chart. rewrite bool_decide_eq_true_2 by lia.
  do 2 eexists. split; [reflexivity|]. cbn [x y].
  unfold monthly_avg. rewrite <- !list_fmap_compose.
  destruct (sorted_unique_spec (map month rows)) as (Hs & Hnd & Hel).
  assert (fst ∘ (fun m => (m, Series.mean (map combined_index
                                 (filter (fun r => month r = m) rows))))
            <$> sorted_unique (map month rows)
          = sorted_unique (map month rows)) as ->.
  { apply list_fmap_id. }
  split_and!; [done|done| | | |].
  - intros m. rewrite Hel, list_elem_of_fmap. split.
    + intros (r & -> & Hr). by exists r.
    + intros (r & Hr & <-). by exists r.
  - by rewrite length_fmap.
  - unfold year_traces. apply Forall_forall. intros t Ht.
    apply list_elem_of_omap in Ht as (yr & _ & Hyr).
    case_bool_decide as Hlen; [|done]. injection Hyr as <-. cbn [x y].
    rewrite !length_map. done.
  - unfold year_traces. etransitivity; [apply length_omap_le|].
    destruct (sorted_unique_spec (map year rows)) as (_ & Hnd' & Hel').
    transitivity (length (map year rows)); [|by rewrite length_map].
    apply submseteq_length, NoDup_submseteq; [done|]. intros z. apply Hel'.
Qed.

Lemma seasonal_chart_traces_witness :
  12 < length (twelve_months ++ twelve_months)
  /\ exists avg yts,
       traces (seasonal_chart (twelve_months ++ twelve_months) (Some "Rice") (2018, 2023)%Z)
       = avg :: yts
       /\ NoDup (x avg).
Proof.
  assert (12 < length (twelve_months ++ twelve_months)) as H by (cbn; lia).
  split; [exact H|].
  destruct (seasonal_chart_traces _ (Some "Rice") (2018, 2023)%Z H)
    as (avg & yts & E & Hnd & _).
  by exists avg, yts.
Defined.

End selection_facts.

(** ** Trimming and the column names of [cleanup2.py] (line 7) *)

Section strip_facts.
Import cleanup columns.

Lemma lstrip_head (s : string) :
  lstrip s = "" \/ exists c t, lstrip s = String c t /\ is_space c = false.
Proof.
  induction s as [|c s IH]; [by left|]. cbn [lstrip].
  destruct (is_space c) eqn:Hc; [exact IH|]. right. by exists c, s.
Qed.

Lemma lstrip_fixed (c : ascii) (t : string) :
  is_space c = false -> lstrip (String c t) = String c t.
Proof. intros Hc. cbn [lstrip]. by rewrite Hc. Qed.

Lemma rstrip_head (c : ascii) (t : string) :
  is_space c = false -> exists t', rstrip (String c t) = String c t'.
Proof.
  intros Hc. cbn [rstrip]. destruct (rstrip t); rewrite ?Hc; by eexists.
Qed.

Lemma rstrip_cons (c : ascii) (s : string) :
  rstrip (String c s)
  = match rstrip s with
    | EmptyString => if is_space c then EmptyString else String c EmptyString
    | t => String c t
    end.
Proof. reflexivity. Qed.

Lemma rstrip_idem (s : string) : rstrip (rstrip s) = rstrip s.
Proof.
  induction s as [|c s IH]; [done|]. rewrite rstrip_cons.
  destruct (rstrip s) as [|d u] eqn:Hu.
  - destruct (is_space c) eqn:Hc; [done|]. rewrite rstrip_cons. cbn [rstrip].
    by rewrite Hc.
  - rewrite rstrip_cons, IH. reflexivity.
Qed.

Lemma lstrip_strip (s : string) : lstrip (strip s) = strip s.
Proof.
  unfold strip. destruct (lstrip_head s) as [->|(c & t & -> & Hc)]; [done|].
  destruct (rstrip_head c t Hc) as [t' ->]. by apply lstrip_fixed.
Qed.

(** [strip] is idempotent. *)
Lemma strip_idem (s : string) : strip (strip s) = strip s.
Proof.
  unfold strip at 1. rewrite lstrip_strip. unfold strip. apply rstrip_idem.
Qed.

Lemma standardize_char_keeps_nonspace (c : ascii) :
  is_space c = false -> is_space (standardize_char c) = false.
Proof. destruct c as [[] [] [] [] [] [] [] []]; by vm_compute. Qed.

Lemma lstrip_string_map (t : string) :
  lstrip t = t -> lstrip (standardize t) = standardize t.
Proof.
  destruct t as [|c t]; [done|]. intros Ht.
  destruct (lstrip_head (String c t)) as [E|(d & u & E & Hd)];
    rewrite Ht in E; [done|]. injection E as <- <-.
  unfold standardize. cbn [string_map]. apply lstrip_fixed.
  by apply standardize_char_keeps_nonspace.
Qed.

Lemma rstrip_string_map (t : string) :
  rstrip t = t -> rstrip (standardize t) = standardize t.
Proof.
  unfold standardize. induction t as [|c t IH]; [done|].
  rewrite rstrip_cons. cbn [string_map]. destruct (rstrip t) as [|d u] eqn:Hu.
  - destruct (is_space c) eqn:Hc; [done|]. intros [= <-].
    cbn [string_map]. rewrite rstrip_cons. cbn [rstrip].
    by rewrite standardize_char_keeps_nonspace.
  - intros [= <-]. rewrite rstrip_cons, IH by done. reflexivity.
Qed.

Lemma standardize_idem (name : string) :
  standardize (standardize name) = standardize name.
Proof.
  unfold standardize. induction name as [|c name IH]; [done|].
  cbn [string_map]. by rewrite standardize_char_idem, IH.
Qed.

Lemma standardize_clean (name : string) :
  free_of (fun c => Ascii.eqb c " " || Ascii.eqb c "-" || is_upper c)
          (standardize name) = true.
Proof.
  unfold standardize. induction name as [|c name IH]; [done|].
  cbn [string_map free_of]. rewrite IH.
  destruct (standardize_char_clean c) as (-> & -> & ->). done.
Qed.

(** The column names of [cleanup2.py] (trimmed, lower-cased, blanks and
    hyphens replaced) are stable under a second standardisation, carry
    no blank, hyphen or upper-case letter and no whitespace at either
    end. *)
Theorem standardize2_spec (name : string) :
  standardize2 (standardize2 name) = standardize2 name
  /\ free_of (fun c => Ascii.eqb c " " || Ascii.eqb c "-" || is_upper c)
             (standardize2 name) = true
  /\ strip (standardize2 name) = standardize2 name.
Proof.
  assert (strip (standardize2 name) = standardize2 name) as Hs.
  { unfold standardize2. unfold strip at 1.
    rewrite lstrip_string_map by apply lstrip_strip.
    apply rstrip_string_map. unfold strip. apply rstrip_idem. }
  split_and!; [|apply standardize_clean|done].
  unfold standardize2 at 1. rewrite Hs. unfold standardize2.
  apply standardize_idem.
Qed.

End strip_facts.
